(** * KQCircuits: the coplanar waveguide element

    A shallow embedding of [kqcircuits/elements/waveguide_coplanar.py]:
    the corner solver [get_corner_data], the path synthesizer
    [produce_waveguide], the termination builder [produce_end_termination]
    and the continuity verifier [is_continuous].

    Python floats are IEEE 754 binary64 numbers; they are modelled by the
    primitive floats of the kernel, so that sums, products, quotients, square
    roots and comparisons are the ones the interpreter computes.  The
    elementary functions of the [math] module and the orientation test
    [vprod_sign] of the layout library are not part of the repository: the
    program is parameterised by them ([Host]), and every general statement
    holds for every host. *)

From Stdlib Require Import Floats ZArith List String Bool Lia Uint63 Permutation.
Import ListNotations.

Set Implicit Arguments.

(* ------------------------------------------------------------------ *)
(** ** Points and vectors of the layout library *)

Module DVector.
Record t : Set := new { x : float; y : float }.

Definition add (u v : t) : t := new (x u + x v) (y u + y v).
Definition sub (u v : t) : t := new (x u - x v) (y u - y v).
(** [v * s] and [s * v] are the same operation of the library. *)
Definition mul (v : t) (s : float) : t := new (x v * s) (y v * s).
(** [v / s] multiplies each coordinate by the reciprocal [1.0 / s], as the
    library does; this is not always the quotient of the coordinate by [s]. *)
Definition div (v : t) (s : float) : t :=
  let mult := (1 / s)%float in new (x v * mult)%float (y v * mult)%float.
Definition length (v : t) : float := PrimFloat.sqrt (x v * x v + y v * y v).
Definition abs (v : t) : float := length v.
End DVector.

Module DPoint.
Record t : Set := new { x : float; y : float }.

(** [p - q] is the vector from [q] to [p]. *)
Definition sub (p q : t) : DVector.t := DVector.new (x p - x q) (y p - y q).
Definition add_v (p : t) (v : DVector.t) : t :=
  new (x p + DVector.x v) (y p + DVector.y v).
Definition sub_v (p : t) (v : DVector.t) : t :=
  new (x p - DVector.x v) (y p - DVector.y v).
Definition distance (p q : t) : float :=
  PrimFloat.sqrt ((x p - x q) * (x p - x q) + (y p - y q) * (y p - y q)).
(** [to_p] keeps the coordinates. *)
Definition to_p (p : t) : t := p.
Definition to_v (p : t) : DVector.t := DVector.new (x p) (y p).
End DPoint.

(** [DTrans.R270.trans]: rotation by 270 degrees, (x, y) to (y, -x). *)
Definition R270 (v : DVector.t) : DVector.t :=
  DVector.new (DVector.y v) (- DVector.x v).

(** [DCplxTrans(mag, rot, mirrx, u)]; the rotation is in degrees. *)
Record DCplxTrans : Set := mkDCplxTrans
  { mag : float; rot : float; mirrx : bool; disp : DVector.t }.

(** A polygon is the list of its vertices; [DPolygon(pts)] takes them as
    displacements and [transform] with a translation moves each of them. *)
Definition DPolygon : Set := list DPoint.t.

Definition DPolygon_new (pts : list DVector.t) : DPolygon :=
  map (fun v => DPoint.new (DVector.x v) (DVector.y v)) pts.

Definition DPolygon_transform (shift : DVector.t) (poly : DPolygon) : DPolygon :=
  map (fun p => DPoint.add_v p shift) poly.

(* ------------------------------------------------------------------ *)
(** ** What the element sends to the layout *)

Inductive PCell : Set :=
| WaveguideCoplanarStraight (l : float)
| WaveguideCoplanarCurved (alpha : float) (n : Z).

Inductive event : Set :=
| insert_cell (cell : PCell) (transf : DCplxTrans)
| insert_shape (face_index : Z) (layer : string) (poly : DPolygon)
| add_port (name : string) (pos : DPoint.t) (dir : DVector.t).

(* ------------------------------------------------------------------ *)
(** ** Python: exceptions, floats, lists *)

Inductive exn : Set := IndexError | ZeroDivisionError | TypeError.

(** A computation gives the events it has sent to the layout, in order, and
    either a value or the exception that stopped it.  What was sent before an
    exception stays in the layout. *)
Definition Py (A : Type) : Type := (list event * (exn + A))%type.

Definition ret {A} (a : A) : Py A := ([], inr a).
Definition raise {A} (e : exn) : Py A := ([], inl e).
Definition emit (ev : event) : Py unit := ([ev], inr tt).

Definition bind {A B} (m : Py A) (k : A -> Py B) : Py B :=
  match snd m with
  | inl e => (fst m, inl e)
  | inr a => (fst m ++ fst (k a), snd (k a))
  end.

Declare Scope py_scope.
Delimit Scope py_scope with py.
Notation "x <- m ;; k" := (bind m (fun x => k))
  (at level 61, m at next level, right associativity) : py_scope.
Notation "m ;;; k" := (bind m (fun _ => k))
  (at level 61, right associativity) : py_scope.
Notation "' pat <- m ;; k" := (bind m (fun x => match x with pat => k end))
  (at level 61, pat pattern, m at next level, right associativity) : py_scope.

Definition events {A} (m : Py A) : list event := fst m.
Definition outcome {A} (m : Py A) : exn + A := snd m.

(** [x / y] on floats raises when the divisor is zero. *)
Definition truediv (x y : float) : Py float :=
  if (y =? 0)%float then raise ZeroDivisionError else ret (x / y)%float.

(** [float(i)] for an [int]; exact for the small integers of this program. *)
Definition float_of_int (i : Z) : float :=
  match i with
  | Z0 => 0%float
  | Zpos _ => PrimFloat.of_uint63 (Uint63.of_Z i)
  | Zneg p => (- PrimFloat.of_uint63 (Uint63.of_Z (Zpos p)))%float
  end.

(** [l[i]], a negative index counting from the end. *)
Definition getitem {A} (l : list A) (i : Z) : Py A :=
  let n := Z.of_nat (List.length l) in
  let k := if (i <? 0)%Z then (i + n)%Z else i in
  if (k <? 0)%Z then raise IndexError
  else match nth_error l (Z.to_nat k) with
       | Some a => ret a
       | None => raise IndexError
       end.

(** [math.pi] and the literal [1e-5]. *)
Definition math_pi : float := 0x1.921fb54442d18p+1%float.
Definition min_angle : float := 0x1.4f8b588e368f1p-17%float.

(** The functions the program takes from outside the repository. *)
Record Host : Type := mkHost
  { math_sin : float -> float;
    math_cos : float -> float;
    math_tan : float -> float;
    math_atan2 : float -> float -> float;
    vprod_sign : DVector.t -> DVector.t -> Z }.

(** The parameters of the element the program reads. *)
Record Element : Set := mkElement
  { a : float; b : float; margin : float; r : float; n : Z;
    path : list DPoint.t;
    term1 : float; term2 : float;
    corner_safety_overlap : float }.

(* ------------------------------------------------------------------ *)
(** ** The element *)

Section WaveguideCoplanar.

Variable host : Host.

Local Abbreviation sin := (math_sin host).
Local Abbreviation cos := (math_cos host).
Local Abbreviation tan := (math_tan host).
Local Abbreviation atan2 := (math_atan2 host).

Local Open Scope float_scope.
Local Open Scope py_scope.

(** Divisions by the literal [2] and by [math.pi] cannot raise and are written
    with the division of floats; every other division is a [truediv]. *)

Definition get_corner_data (point1 point2 point3 : DPoint.t) (r : float)
  : Py (DVector.t * DVector.t * float * float * DPoint.t) :=
  let v1 := DPoint.sub point2 point1 in
  let v2 := DPoint.sub point3 point2 in
  let alpha1 := atan2 (DVector.y v1) (DVector.x v1) in
  let alpha2 := atan2 (DVector.y v2) (DVector.x v2) in
  let alphacorner := ((math_pi - (alpha2 - alpha1)) / 2) + alpha2 in
  distcorner <- truediv (float_of_int (vprod_sign host v1 v2) * r)
                        (sin ((math_pi - (alpha2 - alpha1)) / 2)) ;;
  let corner_pos :=
    DPoint.add_v point2
      (DVector.new (cos alphacorner * distcorner) (sin alphacorner * distcorner)) in
  ret (v1, v2, alpha1, alpha2, corner_pos).

Definition produce_end_termination (elem : Element) (point_1 point_2 : DPoint.t)
  (term_len : float) (face_index : Z) : Py unit :=
  let a := a elem in
  let b := b elem in
  inv <- truediv 1 (DPoint.distance point_1 point_2) ;;
  let v := DVector.mul (DPoint.sub point_2 point_1) inv in
  let u := R270 v in
  let shift_start := DPoint.to_v point_2 in
  (if 0 <? term_len then
     let poly := DPolygon_new
       [ DVector.mul u (a / 2 + b);
         DVector.add (DVector.mul u (a / 2 + b)) (DVector.mul v term_len);
         DVector.add (DVector.mul u (- a / 2 - b)) (DVector.mul v term_len);
         DVector.mul u (- a / 2 - b) ] in
     emit (insert_shape face_index "base_metal_gap_wo_grid"
             (DPolygon_transform shift_start poly))
   else ret tt) ;;;
  (* protection *)
  let term_len := term_len + margin elem in
  let poly2 := DPolygon_new
    [ DVector.mul u (a / 2 + b + margin elem);
      DVector.add (DVector.mul u (a / 2 + b + margin elem)) (DVector.mul v term_len);
      DVector.add (DVector.mul u (- a / 2 - b - margin elem)) (DVector.mul v term_len);
      DVector.mul u (- a / 2 - b - margin elem) ] in
  emit (insert_shape face_index "ground_grid_avoidance"
          (DPolygon_transform shift_start poly2)).

Section produce.

Variable self : Element.

(** [points = [point for point in self.path.each_point()]] *)
Local Abbreviation points := (path self).

(** One pass of the loop over the corners: [segment_last] comes in, the new
    [segment_last] goes out. *)
Definition corner_pass (i : nat) (segment_last : DPoint.t) : Py DPoint.t :=
  point_i <- getitem points (Z.of_nat i) ;;
  point_i1 <- getitem points (Z.of_nat i + 1) ;;
  point_i2 <- getitem points (Z.of_nat i + 2) ;;
  (* Corner coordinates *)
  '(v1, v2, alpha1, alpha2, corner_pos) <-
     get_corner_data point_i point_i1 point_i2 (r self) ;;
  (* Straight segment before the corner *)
  let segment_start := segment_last in
  segment_end <- getitem points (Z.of_nat i + 1) ;;
  cut <- truediv (float_of_int (vprod_sign host v1 v2) * r self)
                 (tan ((math_pi - (alpha2 - alpha1)) / 2)) ;;
  let l := DPoint.distance segment_start segment_end - cut
           + corner_safety_overlap self in
  let angle := 180 / math_pi
               * atan2 (DPoint.y segment_end - DPoint.y segment_start)
                       (DPoint.x segment_end - DPoint.x segment_start) in
  let transf := mkDCplxTrans 1 angle false (DPoint.to_v segment_start) in
  emit (insert_cell (WaveguideCoplanarStraight l) transf) ;;;
  point_i1' <- getitem points (Z.of_nat i + 1) ;;
  inv <- truediv 1 (DVector.abs v2) ;;
  let segment_last :=
    DPoint.to_p
      (DPoint.sub_v
         (DPoint.add_v point_i1' (DVector.mul (DVector.mul v2 inv) cut))
         (DVector.div (DVector.mul v2 (corner_safety_overlap self))
                      (DVector.length v2))) in
  (* Curve at the corner *)
  let alpha := alpha2 - alpha1 in
  (if min_angle <=? PrimFloat.abs alpha then
     let transf :=
       mkDCplxTrans 1
         (alpha1 / math_pi * 180 - float_of_int (vprod_sign host v1 v2 * 90))
         false (DPoint.to_v corner_pos) in
     emit (insert_cell (WaveguideCoplanarCurved alpha (n self)) transf)
   else ret tt) ;;;
  ret segment_last.

(** [for i in range(0, len(points) - 2)] *)
Fixpoint for_corners (range : list nat) (segment_last : DPoint.t) : Py DPoint.t :=
  match range with
  | [] => ret segment_last
  | i :: range' =>
      segment_last' <- corner_pass i segment_last ;;
      for_corners range' segment_last'
  end.

Definition produce_waveguide : Py unit :=
  (* Termination before the first segment *)
  point_1 <- getitem points 1 ;;
  point_0 <- getitem points 0 ;;
  produce_end_termination self point_1 point_0 (term1 self) 0 ;;;
  p0 <- getitem points 0 ;;
  p0' <- getitem points 0 ;;
  p1 <- getitem points 1 ;;
  emit (add_port "a" p0 (DPoint.sub p0' p1)) ;;;
  (* For each segment except the last *)
  segment_last <-
    (if (0 <? term1 self) && (1 <? List.length points)%nat then
       (* Extend segment_last negatively *)
       q1 <- getitem points 1 ;;
       q0 <- getitem points 0 ;;
       let v2 := DPoint.sub q1 q0 in
       q0' <- getitem points 0 ;;
       ret (DPoint.to_p
              (DPoint.sub_v q0'
                 (DVector.div (DVector.mul v2 (corner_safety_overlap self))
                              (DVector.length v2))))
     else getitem points 0) ;;
  segment_last <- for_corners (seq 0 (List.length points - 2)) segment_last ;;
  (* Last segment *)
  let segment_start := segment_last in
  segment_end <- getitem points (-1) ;;
  let l := DPoint.distance segment_start segment_end in
  let l := if 0 <? term2 self then l + corner_safety_overlap self else l in
  let angle := 180 / math_pi
               * atan2 (DPoint.y segment_end - DPoint.y segment_start)
                       (DPoint.x segment_end - DPoint.x segment_start) in
  (* Terminate the end *)
  e2 <- getitem points (-2) ;;
  e1 <- getitem points (-1) ;;
  produce_end_termination self e2 e1 (term2 self) 0 ;;;
  b0 <- getitem points (-1) ;;
  b0' <- getitem points (-1) ;;
  b1 <- getitem points (-2) ;;
  emit (add_port "b" b0 (DPoint.sub b0' b1)) ;;;
  let transf := mkDCplxTrans 1 angle false (DPoint.to_v segment_start) in
  emit (insert_cell (WaveguideCoplanarStraight l) transf).

Definition produce_impl : Py unit := produce_waveguide.

End produce.
End WaveguideCoplanar.

(* ------------------------------------------------------------------ *)
(** ** The continuity verifier *)

(** A shape of the annotation layer as the recursive iterator shows it. *)
Record Shape : Set := mkShape { is_path : bool; each_dpoint : list DPoint.t }.

(** The iterator: every shape with [dtrans], the map from the coordinates of
    the shape to the coordinates of the waveguide cell. *)
Definition shapes_rec : Type := list (Shape * (DPoint.t -> DPoint.t)).

Definition segment : Set := (DPoint.t * DPoint.t)%type.

Section is_continuous.

Local Open Scope float_scope.
Local Open Scope py_scope.

(** The two endpoints of one path shape.  [next(pts, None)] of a path without
    points is [None], which the transformation rejects. *)
Definition path_endpoints (shape : Shape) (dtrans : DPoint.t -> DPoint.t)
  : Py segment :=
  match each_dpoint shape with
  | [] => raise TypeError
  | pt :: pts =>
      let first_point := dtrans pt in
      let last_point := first_point in
      let last_point := fold_left (fun _ pt => pt) pts last_point in
      let last_point := dtrans last_point in
      ret (first_point, last_point)
  end.

(** [while not shapes_iter.at_end()] *)
Fixpoint find_endpoints (shapes_iter : shapes_rec) (endpoints : list segment)
  : Py (list segment) :=
  match shapes_iter with
  | [] => ret endpoints
  | (shape, dtrans) :: shapes_iter' =>
      if is_path shape then
        e <- path_endpoints shape dtrans ;;
        find_endpoints shapes_iter' (endpoints ++ [e])
      else find_endpoints shapes_iter' endpoints
  end.

Variable endpoints : list segment.
Variable tolerance : float.

Local Abbreviation num_segments := (List.length endpoints).

(** [endpoints[j]]; the index is always in range. *)
Definition segment_at (j : nat) : segment :=
  nth j endpoints (DPoint.new 0 0, DPoint.new 0 0).

(** [for j in range(num_segments)] of [find_connected_point]: the value of
    [found_connected_point] when the loop is left. *)
Fixpoint found_connected_point (i : nat) (point : DPoint.t) (range : list nat)
  : bool :=
  match range with
  | [] => false
  | j :: range' =>
      if negb (i =? j)%nat
         && ((DPoint.distance point (snd (segment_at j)) <? tolerance)
             || (DPoint.distance point (fst (segment_at j)) <? tolerance))
      then true
      else found_connected_point i point range'
  end.

(** The counter [num_non_connected_points] goes in and comes out. *)
Definition find_connected_point (i : nat) (point : DPoint.t)
  (num_non_connected_points : nat) : nat :=
  if found_connected_point i point (seq 0 num_segments)
  then num_non_connected_points
  else S num_non_connected_points.

(** [for i in range(num_segments)], with its [break]. *)
Fixpoint for_segments (range : list nat) (num_non_connected_points : nat)
  : bool :=
  match range with
  | [] => true
  | i :: range' =>
      let num :=
        if negb (DPoint.distance (fst (segment_at i)) (snd (segment_at i)) =? 0)
        then find_connected_point i (snd (segment_at i))
               (find_connected_point i (fst (segment_at i))
                  num_non_connected_points)
        else num_non_connected_points in
      if (2 <? num)%nat then false else for_segments range' num
  end.

Definition endpoints_continuous : bool :=
  for_segments (seq 0 num_segments) 0.

End is_continuous.

Definition is_continuous (annotation_shapes : shapes_rec) (tolerance : float)
  : Py bool :=
  bind (find_endpoints annotation_shapes [])
       (fun endpoints => ret (endpoints_continuous endpoints tolerance)).

(* ------------------------------------------------------------------ *)
(** ** The verifier in the words of its description *)

Section unmatched.

Local Open Scope float_scope.

Variable endpoints : list segment.
Variable tolerance : float.

(** The pieces with their positions in the collection. *)
Definition numbered : list (nat * segment) :=
  combine (seq 0 (List.length endpoints)) endpoints.

(** Some endpoint of a piece other than piece [i] is within the tolerance
    of [p]. *)
Definition has_neighbour (i : nat) (p : DPoint.t) : Prop :=
  exists j piece q,
    nth_error endpoints j = Some piece /\ j <> i /\
    (q = fst piece \/ q = snd piece) /\
    (DPoint.distance p q <? tolerance) = true.

Definition has_neighbourb (i : nat) (p : DPoint.t) : bool :=
  existsb (fun jp : nat * segment =>
             negb (fst jp =? i)%nat
             && ((DPoint.distance p (fst (snd jp)) <? tolerance)
                 || (DPoint.distance p (snd (snd jp)) <? tolerance)))
          numbered.

(** The two endpoints of a piece coincide: they are at distance zero. *)
Definition degenerate (piece : segment) : bool :=
  (DPoint.distance (fst piece) (snd piece) =? 0).

(** The endpoints that must connect and do not. *)
Definition unmatched_endpoints : list (nat * DPoint.t) :=
  flat_map (fun ip : nat * segment =>
              if degenerate (snd ip) then []
              else map (pair (fst ip))
                     (filter (fun p => negb (has_neighbourb (fst ip) p))
                             [fst (snd ip); snd (snd ip)]))
           numbered.

End unmatched.

(* ------------------------------------------------------------------ *)
(** ** A host to run the program

    The arithmetic below is binary64 arithmetic; the elementary functions are
    computed by argument reduction and truncated power series.  They return
    the values of the C library where that library is exact -- [sin 0 = 0],
    [atan2 0 x = 0] for [x > 0], [atan2 0 x = pi] for [x < 0],
    [atan2 y 0 = pi/2] for [y > 0] -- and approximations of them elsewhere.
    The orientation test is the sign of the cross product.  The host only
    serves to run the program on sample paths. *)

Module Ref.
Local Open Scope float_scope.

(** Nearest integer, for arguments below 2^51 in magnitude. *)
Definition rnd (x : float) : float := (x + 0x1.8p52) - 0x1.8p52.

Definition pio2_hi : float := 0x1.921fb54442d18p+0.
Definition pio2_lo : float := 0x1.1a62633145c07p-54.
Definition two_over_pi : float := 0x1.45f306dc9c883p-1.

(** Horner evaluation of [c0 + z (c1 + z (c2 + ...))]. *)
Fixpoint horner (cs : list float) (z : float) : float :=
  match cs with
  | [] => 0
  | c :: cs' => c + z * horner cs' z
  end.

(** Coefficients (-1)^k / (2k+1)! and (-1)^k / (2k)!, then (-1)^k / (2k+1). *)
Fixpoint sin_coeffs (k : nat) (c j : float) : list float :=
  match k with
  | O => []
  | S k' => c :: sin_coeffs k' (- c / ((j + 1) * (j + 2))) (j + 2)
  end.

Fixpoint atan_coeffs (k : nat) (s j : float) : list float :=
  match k with
  | O => []
  | S k' => s / j :: atan_coeffs k' (- s) (j + 2)
  end.

Definition sin_poly (y : float) : float := y * horner (sin_coeffs 10 1 1) (y * y).
Definition cos_poly (y : float) : float := horner (sin_coeffs 10 1 0) (y * y).
Definition atan_poly (t : float) : float := t * horner (atan_coeffs 14 1 1) (t * t).

(** [x = k * pi/2 + y] with [|y| <= pi/4]; [q] is [k] modulo 4 in -2..2. *)
Definition reduce (x : float) : float * float :=
  let k := rnd (x * two_over_pi) in
  let y := (x - k * pio2_hi) - k * pio2_lo in
  (k - 4 * rnd (k / 4), y).

Definition sin (x : float) : float :=
  let (q, y) := reduce x in
  if q =? 0 then sin_poly y
  else if q =? 1 then cos_poly y
  else if q =? -1 then - cos_poly y
  else - sin_poly y.

Definition cos (x : float) : float :=
  let (q, y) := reduce x in
  if q =? 0 then cos_poly y
  else if q =? 1 then - sin_poly y
  else if q =? -1 then sin_poly y
  else - cos_poly y.

Definition tan (x : float) : float := sin x / cos x.

Definition halve (t : float) : float := t / (1 + PrimFloat.sqrt (1 + t * t)).

Definition atan_unit (t : float) : float := 4 * atan_poly (halve (halve t)).

Definition atan_pos (t : float) : float :=
  if 1 <? t then math_pi / 2 - atan_unit (1 / t) else atan_unit t.

Definition atan (t : float) : float :=
  if t <? 0 then - atan_pos (- t) else atan_pos t.

Definition atan2 (y x : float) : float :=
  if 0 <? x then atan (y / x)
  else if x <? 0 then
    if y <? 0 then atan (y / x) - math_pi else atan (y / x) + math_pi
  else if 0 <? y then math_pi / 2
  else if y <? 0 then - (math_pi / 2)
  else 0.

Definition vprod_sign (u v : DVector.t) : Z :=
  let p1 := DVector.x u * DVector.y v in
  let p2 := DVector.y u * DVector.x v in
  if p2 <? p1 then 1%Z else if p1 <? p2 then (-1)%Z else 0%Z.

Definition host : Host := mkHost sin cos tan atan2 vprod_sign.

End Ref.

(* ------------------------------------------------------------------ *)
(** ** Reading the layout *)

Definition is_straight (ev : event) : bool :=
  match ev with
  | insert_cell (WaveguideCoplanarStraight _) _ => true
  | _ => false
  end.

Definition is_curved (ev : event) : bool :=
  match ev with
  | insert_cell (WaveguideCoplanarCurved _ _) _ => true
  | _ => false
  end.

Definition is_cell (ev : event) : bool :=
  match ev with
  | insert_cell _ _ => true
  | _ => false
  end.

Definition is_shape (ev : event) : bool :=
  match ev with
  | insert_shape _ _ _ => true
  | _ => false
  end.

(** The rectangle of a termination: one edge centred at [point_2], from
    [u * w_plus] to [u * w_minus], extending [len] along [v], where [v] is the
    direction from [point_1] to [point_2] and [u] is [v] turned by 270
    degrees. *)
Definition termination_rectangle (point_1 point_2 : DPoint.t)
  (w_plus w_minus len : float) : DPolygon :=
  let v := DVector.mul (DPoint.sub point_2 point_1)
             (1 / DPoint.distance point_1 point_2)%float in
  let u := R270 v in
  DPolygon_transform (DPoint.to_v point_2)
    (DPolygon_new
       [ DVector.mul u w_plus;
         DVector.add (DVector.mul u w_plus) (DVector.mul v len);
         DVector.add (DVector.mul u w_minus) (DVector.mul v len);
         DVector.mul u w_minus ]).

(* ------------------------------------------------------------------ *)
(** ** Sample inputs *)

Module Sample.
Local Open Scope float_scope.

(** The default of [corner_safety_overlap], the float written [0.001]. *)
Definition overlap : float := 0x1.0624dd2f1a9fcp-10.

Definition element (points : list DPoint.t) (term1 term2 : float) : Element :=
  mkElement 10 6 5 30 64 points term1 term2 overlap.

Definition pt (x y : float) : DPoint.t := DPoint.new x y.

(** A right-angle corner, a straight line through three points, a path that
    turns back on itself, and a path of one point. *)
Definition corner : list DPoint.t := [pt 0 0; pt 100 0; pt 100 100].
Definition line : list DPoint.t := [pt 0 0; pt 100 0; pt 200 0].
Definition reversal : list DPoint.t := [pt 0 0; pt 1 0; pt 0 0].
Definition single : list DPoint.t := [pt 0 0].

(** Two pieces on the x axis, half a unit apart. *)
Definition two_pieces : list segment :=
  [(pt 0 0, pt 1 0); (pt 1.5 0, pt 3 0)].

Definition two_shapes : shapes_rec :=
  [(mkShape true [pt 0 0; pt 1 0], fun p => p);
   (mkShape false [pt 7 7], fun p => p);
   (mkShape true [pt 1.5 0; pt 2 0; pt 3 0], fun p => p)].

End Sample.

(* ------------------------------------------------------------------ *)
(** ** More ways to read the layout and the pieces *)

Definition is_port (ev : event) : bool :=
  match ev with
  | add_port _ _ _ => true
  | _ => false
  end.

(** What the element may send: cells under a transformation that neither
    scales nor mirrors, polygons on face 0 in one of the two termination
    layers, and the ports "a" and "b". *)
Definition element_event (ev : event) : Prop :=
  match ev with
  | insert_cell _ transf => mag transf = 1%float /\ mirrx transf = false
  | insert_shape face_index layer _ =>
      face_index = 0%Z /\
      (layer = "base_metal_gap_wo_grid"%string
       \/ layer = "ground_grid_avoidance"%string)
  | add_port name _ _ => name = "a"%string \/ name = "b"%string
  end.

Section pieces.

Local Open Scope float_scope.

Variable tolerance : float.

(** Some endpoint of the pieces [others] is within the tolerance of [p]. *)
Definition near_any (others : list segment) (p : DPoint.t) : bool :=
  existsb (fun o : segment =>
             (DPoint.distance p (fst o) <? tolerance)
             || (DPoint.distance p (snd o) <? tolerance))
          others.

(** The endpoints of [piece] that must connect to one of [others] and do
    not: none for a piece whose endpoints coincide. *)
Definition loose_ends (others : list segment) (piece : segment) : nat :=
  if degenerate piece then 0%nat
  else List.length (filter (fun p => negb (near_any others p))
                           [fst piece; snd piece]).

(** The loose ends of the pieces [rest], each taken against all the other
    pieces: those of [before] and the remaining ones of [rest]. *)
Fixpoint loose_total (before rest : list segment) : nat :=
  match rest with
  | [] => 0%nat
  | piece :: rest' =>
      (loose_ends (before ++ rest') piece
       + loose_total (before ++ [piece]) rest')%nat
  end.

(** The end of [a] and the start of [b] are within the tolerance of each
    other. *)
Definition linked (a b : segment) : bool :=
  (DPoint.distance (snd a) (fst b) <? tolerance)
  && (DPoint.distance (fst b) (snd a) <? tolerance).

(** Every piece is linked to the next one. *)
Fixpoint chain (pieces : list segment) : bool :=
  match pieces with
  | a :: (b :: _) as pieces' => linked a b && chain pieces'
  | _ => true
  end.

End pieces.

(** The only exception [m] can raise is [e]. *)
Definition raises_only {A} (e : exn) (m : Py A) : Prop :=
  match outcome m with
  | inl e' => e' = e
  | inr _ => True
  end.

(* ------------------------------------------------------------------ *)
(** ** More sample inputs *)

Module Sample2.
Local Open Scope float_scope.

Definition two_points : list DPoint.t := [Sample.pt 0 0; Sample.pt 100 0].
Definition diagonal : list DPoint.t := [Sample.pt 0 0; Sample.pt 70 70].
Definition repeated_start : list DPoint.t :=
  [Sample.pt 0 0; Sample.pt 0 0; Sample.pt 100 0].
Definition repeated_inside : list DPoint.t :=
  [Sample.pt 0 0; Sample.pt 100 0; Sample.pt 100 0; Sample.pt 100 100].

(** A run, a corner and a run, a quarter of a unit apart; and two runs two
    units apart. *)
Definition chain_pieces : list segment :=
  [ (Sample.pt 0 0, Sample.pt 70 0);
    (Sample.pt 70.25 0, Sample.pt 100 30);
    (Sample.pt 100 29.75, Sample.pt 100 100) ].

Definition broken_pieces : list segment :=
  [ (Sample.pt 0 0, Sample.pt 70 0); (Sample.pt 72 0, Sample.pt 100 0) ].

(** A run with a piece of no length beside it. *)
Definition lone_piece : list segment :=
  [ (Sample.pt 5 5, Sample.pt 5 5); (Sample.pt 0 0, Sample.pt 70 0) ].

Definition shift (p : DPoint.t) : DPoint.t :=
  DPoint.new (DPoint.x p + 10) (DPoint.y p).

Definition mixed_shapes : shapes_rec :=
  [ (mkShape false [Sample.pt 5 5], fun p => p);
    (mkShape true [Sample.pt 0 0; Sample.pt 35 0; Sample.pt 70 0], fun p => p);
    (mkShape false [], fun p => p);
    (mkShape true [Sample.pt 60.25 0; Sample.pt 90 0], shift) ].

End Sample2.

(* ================================================================== *)
(** * Properties *)

(** ** Computations *)

Section PyLaws.

Context {A B : Type}.

Lemma bind_ret (a : A) (k : A -> Py B) : bind (ret a) k = k a.
Proof. unfold bind, ret; simpl. now destruct (k a). Qed.

Lemma bind_raise (e : exn) (k : A -> Py B) : bind (raise e) k = raise e.
Proof. reflexivity. Qed.

Lemma bind_value (m : Py A) (k : A -> Py B) (a : A) :
  outcome m = inr a ->
  bind m k = (events m ++ events (k a), outcome (k a)).
Proof. unfold bind, outcome, events. now intros ->. Qed.

(** A sequence that returns: its first part returned too. *)
Lemma bind_returns (m : Py A) (k : A -> Py B) (b : B) :
  outcome (bind m k) = inr b ->
  exists a, outcome m = inr a /\ outcome (k a) = inr b /\
            events (bind m k) = events m ++ events (k a).
Proof.
  unfold bind, outcome, events.
  destruct (snd m) as [e | a]; simpl; [discriminate |].
  intros H. exists a. auto.
Qed.

End PyLaws.

Lemma bind_emit {B} (ev : event) (k : unit -> Py B) :
  bind (emit ev) k = (ev :: events (k tt), outcome (k tt)).
Proof. reflexivity. Qed.

Lemma getitem_events {A} (l : list A) (i : Z) : events (getitem l i) = [].
Proof.
  unfold getitem.
  destruct (_ <? 0)%Z; [reflexivity |].
  now destruct (nth_error _ _).
Qed.

Lemma getitem_nat {A} (l : list A) (i : nat) (k : Z) (p : A) :
  (0 <= k)%Z ->
  nth_error l (i + Z.to_nat k) = Some p ->
  getitem l (Z.of_nat i + k) = ret p.
Proof.
  intros Hk Hp. unfold getitem. cbv zeta.
  rewrite !(proj2 (Z.ltb_ge (Z.of_nat i + k) 0)) by lia.
  replace (Z.to_nat (Z.of_nat i + k)) with (i + Z.to_nat k)%nat by lia.
  now rewrite Hp.
Qed.

Lemma getitem_short {A} (l : list A) (i : nat) :
  (List.length l <= i)%nat -> getitem l (Z.of_nat i) = raise IndexError.
Proof.
  intros Hi. unfold getitem. cbv zeta.
  rewrite !(proj2 (Z.ltb_ge (Z.of_nat i) 0)) by lia.
  rewrite Nat2Z.id.
  apply nth_error_None in Hi. now rewrite Hi.
Qed.

Lemma getitem_returns {A} (l : list A) (i : Z) (p : A) :
  outcome (getitem l i) = inr p -> getitem l i = ret p.
Proof.
  unfold getitem.
  destruct (_ <? 0)%Z; [discriminate |].
  destruct (nth_error _ _); [|discriminate].
  now intros [= ->].
Qed.

Lemma truediv_value (x y : float) :
  (y =? 0)%float = false -> truediv x y = ret (x / y)%float.
Proof. unfold truediv. now intros ->. Qed.

Lemma truediv_zero (x y : float) :
  (y =? 0)%float = true -> truediv x y = raise ZeroDivisionError.
Proof. unfold truediv. now intros ->. Qed.

Lemma truediv_returns (x y q : float) :
  outcome (truediv x y) = inr q ->
  (y =? 0)%float = false /\ q = (x / y)%float.
Proof.
  unfold truediv. destruct (y =? 0)%float; [discriminate |].
  now intros [= <-].
Qed.

(* ------------------------------------------------------------------ *)
(** ** The corner solver *)

Section CornerSolver.

Variable host : Host.
Local Open Scope float_scope.

(** C2, as the code has it: for all points [p1 <> p2], [p2 <> p3] and any
    radius, if the sine of half the supplementary angle is not zero,
    [get_corner_data] returns [v1 = p2 - p1], [v2 = p3 - p2], the two headings
    [alpha1], [alpha2] and [corner_pos = p2 + (cos alphacorner, sin
    alphacorner) * distcorner]; if that sine is zero it raises
    [ZeroDivisionError] instead of returning. *)
Theorem get_corner_data_spec (p1 p2 p3 : DPoint.t) (r : float) :
  p1 <> p2 -> p2 <> p3 ->
  let v1 := DPoint.sub p2 p1 in
  let v2 := DPoint.sub p3 p2 in
  let alpha1 := math_atan2 host (DVector.y v1) (DVector.x v1) in
  let alpha2 := math_atan2 host (DVector.y v2) (DVector.x v2) in
  let half := (math_pi - (alpha2 - alpha1)) / 2 in
  let alphacorner := half + alpha2 in
  let distcorner :=
    float_of_int (vprod_sign host v1 v2) * r / math_sin host half in
  let corner_pos :=
    DPoint.add_v p2
      (DVector.new (math_cos host alphacorner * distcorner)
                   (math_sin host alphacorner * distcorner)) in
  ((math_sin host half =? 0) = false ->
   get_corner_data host p1 p2 p3 r = ret (v1, v2, alpha1, alpha2, corner_pos))
  /\
  ((math_sin host half =? 0) = true ->
   get_corner_data host p1 p2 p3 r = raise ZeroDivisionError).
Proof.
  intros _ _ v1 v2 alpha1 alpha2 half alphacorner distcorner corner_pos.
  unfold get_corner_data.
  fold v1 v2. fold alpha1 alpha2. fold half.
  split; intros Hsin.
  - rewrite truediv_value by exact Hsin. now rewrite bind_ret.
  - rewrite truediv_zero by exact Hsin. reflexivity.
Qed.

End CornerSolver.

(** C2 at the default host and a right-angle corner. *)
Lemma get_corner_data_spec_witness :
  get_corner_data Ref.host (Sample.pt 0 0) (Sample.pt 100 0) (Sample.pt 100 100) 30
  = ret (DVector.new 100 0, DVector.new 0 100, 0%float,
         (math_pi / 2)%float,
         DPoint.new 70 0x1.e000000000001p+4).
Proof.
  refine (proj1 (get_corner_data_spec Ref.host (p1 := Sample.pt 0 0)
                   (p2 := Sample.pt 100 0) (p3 := Sample.pt 100 100) 30 _ _) _).
  - discriminate.
  - discriminate.
  - vm_compute. reflexivity.
Defined.

(** On any host whose [atan2] gives the headings [0.0] and [math.pi] of the
    two directions of the x axis and whose [sin] maps [0.0] to [0.0], as the
    C library does, the corner solver raises at an exact reversal. *)
Lemma get_corner_data_reversal_raises (host : Host) (r : float) :
  math_atan2 host 0 1 = 0%float ->
  math_atan2 host 0 (-1) = math_pi ->
  math_sin host 0 = 0%float ->
  get_corner_data host (Sample.pt 0 0) (Sample.pt 1 0) (Sample.pt 0 0) r
  = raise ZeroDivisionError.
Proof.
  intros Hfwd Hback Hsin. unfold get_corner_data.
  cbn [DPoint.sub DPoint.x DPoint.y DVector.x DVector.y Sample.pt].
  change (1 - 0)%float with 1%float. change (0 - 0)%float with 0%float.
  change (0 - 1)%float with (-1)%float.
  rewrite Hfwd, Hback.
  change ((math_pi - (math_pi - 0)) / 2)%float with 0%float.
  rewrite Hsin. reflexivity.
Qed.

(** C2 as stated fails where the path turns back on itself: the two legs
    [(0,0) -> (1,0)] and [(1,0) -> (0,0)] are distinct points with headings
    [0] and [math.pi], half the supplementary angle is [0.0], its sine is
    [0.0], and the division raises. *)
Lemma get_corner_data_reversal :
  Sample.pt 0 0 <> Sample.pt 1 0 /\ Sample.pt 1 0 <> Sample.pt 0 0 /\
  get_corner_data Ref.host (Sample.pt 0 0) (Sample.pt 1 0) (Sample.pt 0 0) 30
  = raise ZeroDivisionError.
Proof.
  split; [discriminate |]. split; [discriminate |].
  vm_compute. reflexivity.
Qed.

(* ------------------------------------------------------------------ *)
(** ** The termination builder *)

Section Termination.

Variable elem : Element.
Local Open Scope float_scope.

(** The cap and the keep-out strip of an end, as lists of events. *)
Lemma produce_end_termination_value (point_1 point_2 : DPoint.t)
  (term_len : float) (face_index : Z) :
  (DPoint.distance point_1 point_2 =? 0) = false ->
  produce_end_termination elem point_1 point_2 term_len face_index =
  ((if 0 <? term_len
    then [insert_shape face_index "base_metal_gap_wo_grid"
            (termination_rectangle point_1 point_2
               (a elem / 2 + b elem) (- a elem / 2 - b elem) term_len)]
    else [])
   ++ [insert_shape face_index "ground_grid_avoidance"
         (termination_rectangle point_1 point_2
            (a elem / 2 + b elem + margin elem)
            (- a elem / 2 - b elem - margin elem)
            (term_len + margin elem))],
   inr tt).
Proof.
  intros Hd. unfold produce_end_termination.
  rewrite truediv_value by exact Hd. rewrite bind_ret.
  destruct (0 <? term_len); reflexivity.
Qed.

Lemma produce_end_termination_zero (point_1 point_2 : DPoint.t)
  (term_len : float) (face_index : Z) :
  (DPoint.distance point_1 point_2 =? 0) = true ->
  produce_end_termination elem point_1 point_2 term_len face_index =
  raise ZeroDivisionError.
Proof.
  intros Hd. unfold produce_end_termination.
  now rewrite truediv_zero by exact Hd.
Qed.

Lemma produce_end_termination_returns (point_1 point_2 : DPoint.t)
  (term_len : float) (face_index : Z) (u : unit) :
  outcome (produce_end_termination elem point_1 point_2 term_len face_index)
  = inr u ->
  (DPoint.distance point_1 point_2 =? 0) = false.
Proof.
  destruct (DPoint.distance point_1 point_2 =? 0) eqn:Hd; [| reflexivity].
  now rewrite produce_end_termination_zero.
Qed.

End Termination.

(* ------------------------------------------------------------------ *)
(** ** The path synthesizer *)

Section Synthesizer.

Variable host : Host.
Variable self : Element.
Local Open Scope float_scope.

Lemma getitem_at {A} (l : list A) (i : nat) (p : A) :
  nth_error l i = Some p -> getitem l (Z.of_nat i) = ret p.
Proof.
  intros Hp. rewrite <- (Z.add_0_r (Z.of_nat i)).
  apply getitem_nat; [lia |]. now rewrite Nat.add_0_r.
Qed.

Lemma getitem_inv {A} (l : list A) (z : Z) (p : A) :
  (0 <= z)%Z ->
  outcome (getitem l z) = inr p ->
  nth_error l (Z.to_nat z) = Some p.
Proof.
  intros Hz. unfold getitem. cbv zeta.
  rewrite !(proj2 (Z.ltb_ge z 0)) by lia.
  destruct (nth_error _ _); [| discriminate].
  now intros [= ->].
Qed.

(** One pass of the corner loop, when none of its three divisions is by
    zero. *)
Lemma corner_pass_value (i : nat) (cursor p0 p1 p2 : DPoint.t) :
  nth_error (path self) i = Some p0 ->
  nth_error (path self) (i + 1) = Some p1 ->
  nth_error (path self) (i + 2) = Some p2 ->
  let v1 := DPoint.sub p1 p0 in
  let v2 := DPoint.sub p2 p1 in
  let alpha1 := math_atan2 host (DVector.y v1) (DVector.x v1) in
  let alpha2 := math_atan2 host (DVector.y v2) (DVector.x v2) in
  let half := (math_pi - (alpha2 - alpha1)) / 2 in
  let s := vprod_sign host v1 v2 in
  (math_sin host half =? 0) = false ->
  (math_tan host half =? 0) = false ->
  (DVector.abs v2 =? 0) = false ->
  let cut := float_of_int s * r self / math_tan host half in
  let distcorner := float_of_int s * r self / math_sin host half in
  let corner_pos :=
    DPoint.add_v p1
      (DVector.new (math_cos host (half + alpha2) * distcorner)
                   (math_sin host (half + alpha2) * distcorner)) in
  corner_pass host self i cursor =
  (insert_cell
     (WaveguideCoplanarStraight
        (DPoint.distance cursor p1 - cut + corner_safety_overlap self))
     (mkDCplxTrans 1
        (180 / math_pi
         * math_atan2 host (DPoint.y p1 - DPoint.y cursor)
                           (DPoint.x p1 - DPoint.x cursor))
        false (DPoint.to_v cursor))
   :: (if min_angle <=? PrimFloat.abs (alpha2 - alpha1)
       then [insert_cell
               (WaveguideCoplanarCurved (alpha2 - alpha1) (n self))
               (mkDCplxTrans 1
                  (alpha1 / math_pi * 180 - float_of_int (s * 90))
                  false (DPoint.to_v corner_pos))]
       else []),
   inr (DPoint.sub_v
          (DPoint.add_v p1 (DVector.mul (DVector.mul v2 (1 / DVector.abs v2)) cut))
          (DVector.div (DVector.mul v2 (corner_safety_overlap self))
                       (DVector.length v2)))).
Proof.
  intros H0 H1 H2 v1 v2 alpha1 alpha2 half s Hsin Htan Habs cut distcorner
    corner_pos.
  unfold corner_pass.
  rewrite (getitem_at _ _ H0), bind_ret.
  rewrite !(getitem_nat (path self) i (k := 1) (p := p1)) by (auto; lia).
  rewrite (getitem_nat (path self) i (k := 2) (p := p2)) by (auto; lia).
  rewrite !bind_ret.
  unfold get_corner_data. fold v1 v2. fold alpha1 alpha2. fold half. fold s.
  rewrite truediv_value by exact Hsin. rewrite !bind_ret.
  rewrite truediv_value by exact Htan. rewrite bind_ret, bind_emit.
  rewrite truediv_value by exact Habs. rewrite !bind_ret.
  destruct (min_angle <=? PrimFloat.abs (alpha2 - alpha1)); cbv iota;
    rewrite ?bind_emit, ?bind_ret; reflexivity.
Qed.

Ltac inv_bind H a Ha :=
  apply bind_returns in H; destruct H as (a & Ha & H & _); cbv beta in H.

Lemma corner_pass_returns (i : nat) (cursor cursor' : DPoint.t) :
  outcome (corner_pass host self i cursor) = inr cursor' ->
  exists p0 p1 p2,
    nth_error (path self) i = Some p0 /\
    nth_error (path self) (i + 1) = Some p1 /\
    nth_error (path self) (i + 2) = Some p2 /\
    let v1 := DPoint.sub p1 p0 in
    let v2 := DPoint.sub p2 p1 in
    let alpha1 := math_atan2 host (DVector.y v1) (DVector.x v1) in
    let alpha2 := math_atan2 host (DVector.y v2) (DVector.x v2) in
    let half := (math_pi - (alpha2 - alpha1)) / 2 in
    (math_sin host half =? 0) = false /\
    (math_tan host half =? 0) = false /\
    (DVector.abs v2 =? 0) = false.
Proof.
  intros H. unfold corner_pass in H.
  inv_bind H p0 H0. inv_bind H p1 H1. inv_bind H p2 H2.
  apply getitem_inv in H0; [| lia]. apply getitem_inv in H1; [| lia].
  apply getitem_inv in H2; [| lia].
  rewrite Nat2Z.id in H0.
  replace (Z.to_nat (Z.of_nat i + 1)) with (i + 1)%nat in H1 by lia.
  replace (Z.to_nat (Z.of_nat i + 2)) with (i + 2)%nat in H2 by lia.
  exists p0, p1, p2. repeat split; try assumption.
  all: inv_bind H x Hx; unfold get_corner_data in Hx;
    inv_bind Hx d Hd; apply truediv_returns in Hd as [Hsin ->];
    try exact Hsin.
  all: injection Hx as <-; inv_bind H e He; inv_bind H ct Hcut;
    apply truediv_returns in Hcut as [Htan ->]; try exact Htan.
  all: inv_bind H u Hu; inv_bind H q Hq; inv_bind H inv Hinv;
    apply truediv_returns in Hinv as [Habs ->]; exact Habs.
Qed.


(** A pass that returns has inserted one straight cell and then at most the
    arc of its corner. *)
Lemma corner_pass_events (i : nat) (cursor cursor' : DPoint.t) :
  outcome (corner_pass host self i cursor) = inr cursor' ->
  exists l transf arc,
    events (corner_pass host self i cursor)
    = insert_cell (WaveguideCoplanarStraight l) transf :: arc /\
    forallb is_curved arc = true.
Proof.
  intros H.
  destruct (corner_pass_returns _ _ H)
    as (p0 & p1 & p2 & H0 & H1 & H2 & Hsin & Htan & Habs).
  rewrite (corner_pass_value _ cursor H0 H1 H2 Hsin Htan Habs).
  do 2 eexists. eexists. split; [reflexivity |].
  now destruct (min_angle <=? _).
Qed.

Lemma for_corners_events (range : list nat) :
  forall cursor cursor',
  outcome (for_corners host self range cursor) = inr cursor' ->
  List.length (filter is_straight (events (for_corners host self range cursor)))
  = List.length range /\
  forallb is_cell (events (for_corners host self range cursor)) = true.
Proof.
  induction range as [| i range IH]; intros cursor cursor' H.
  - split; reflexivity.
  - simpl in H |- *.
    destruct (bind_returns _ _ H) as (c1 & H1 & Hrest & ->).
    destruct (corner_pass_events _ _ H1) as (l & t & arc & -> & Harc).
    destruct (IH _ _ Hrest) as [IHn IHc].
    simpl. rewrite filter_app, length_app, forallb_app, IHn, IHc.
    split.
    + replace (filter is_straight arc) with (@nil event); [reflexivity |].
      clear - Harc. induction arc as [| [[] | |] arc IHa]; simpl in *;
        try discriminate; auto.
    + rewrite andb_true_r. clear - Harc.
      induction arc as [| [[] | |] arc IHa]; simpl in *; try discriminate; auto.
Qed.


Lemma outcome_pair {A} (es : list event) (o : exn + A) : outcome (es, o) = o.
Proof. reflexivity. Qed.

Lemma events_pair {A} (es : list event) (o : exn + A) : events (es, o) = es.
Proof. reflexivity. Qed.

(** What a run of the synthesizer that returns has sent to the layout. *)
Lemma produce_waveguide_returns :
  outcome (produce_waveguide host self) = inr tt ->
  exists p0 p1 e2 e1 c0 c1,
    nth_error (path self) 0 = Some p0 /\
    nth_error (path self) 1 = Some p1 /\
    getitem (path self) (-2) = ret e2 /\
    getitem (path self) (-1) = ret e1 /\
    c0 = (if (0 <? term1 self) && (1 <? List.length (path self))%nat
          then DPoint.sub_v p0
                 (DVector.div
                    (DVector.mul (DPoint.sub p1 p0) (corner_safety_overlap self))
                    (DVector.length (DPoint.sub p1 p0)))
          else p0) /\
    (DPoint.distance p1 p0 =? 0) = false /\
    (DPoint.distance e2 e1 =? 0) = false /\
    outcome (for_corners host self (seq 0 (List.length (path self) - 2)) c0)
    = inr c1 /\
    produce_waveguide host self =
    (events (produce_end_termination self p1 p0 (term1 self) 0)
     ++ add_port "a" p0 (DPoint.sub p0 p1)
     :: events (for_corners host self (seq 0 (List.length (path self) - 2)) c0)
     ++ events (produce_end_termination self e2 e1 (term2 self) 0)
     ++ [add_port "b" e1 (DPoint.sub e1 e2);
         insert_cell
           (WaveguideCoplanarStraight
              (if 0 <? term2 self
               then DPoint.distance c1 e1 + corner_safety_overlap self
               else DPoint.distance c1 e1))
           (mkDCplxTrans 1
              (180 / math_pi
               * math_atan2 host (DPoint.y e1 - DPoint.y c1)
                                 (DPoint.x e1 - DPoint.x c1))
              false (DPoint.to_v c1))],
     inr tt).
Proof.
  intros H. unfold produce_waveguide in *.
  destruct (bind_returns _ _ H) as (p1 & H1 & _).
  apply getitem_returns in H1. rewrite H1 in *. rewrite !bind_ret in *.
  destruct (bind_returns _ _ H) as (p0 & H0 & _).
  apply getitem_returns in H0. rewrite H0 in *. rewrite !bind_ret in *.
  destruct (bind_returns _ _ H) as ([] & Ht1 & _).
  rewrite (bind_value _ _ Ht1) in *. rewrite ?outcome_pair, ?events_pair in *.
  rewrite bind_emit in *. rewrite ?outcome_pair, ?events_pair in *.
  apply produce_end_termination_returns in Ht1.
  destruct (bind_returns _ _ H) as (c0 & Hc0 & _).
  assert (Ec0 : (if (0 <? term1 self) && (1 <? Datatypes.length (path self))%nat
      then
       ret
         (DPoint.to_p
            (DPoint.sub_v p0
               (DVector.div
                  (DVector.mul (DPoint.sub p1 p0)
                     (corner_safety_overlap self))
                  (DVector.length (DPoint.sub p1 p0)))))
      else ret p0) = ret (if (0 <? term1 self) && (1 <? List.length (path self))%nat
          then DPoint.sub_v p0
                 (DVector.div
                    (DVector.mul (DPoint.sub p1 p0) (corner_safety_overlap self))
                    (DVector.length (DPoint.sub p1 p0)))
          else p0)) by (now destruct (_ && _)).
  rewrite Ec0 in *. clear Ec0. injection Hc0 as Hc0. rewrite !bind_ret in *.
  rewrite Hc0 in *.
  destruct (bind_returns _ _ H) as (c1 & Hc1 & _).
  rewrite (bind_value _ _ Hc1) in *. rewrite ?outcome_pair, ?events_pair in *.
  destruct (bind_returns _ _ H) as (e1 & He1 & _).
  apply getitem_returns in He1. rewrite He1 in *. rewrite !bind_ret in *.
  destruct (bind_returns _ _ H) as (e2 & He2 & _).
  apply getitem_returns in He2. rewrite He2 in *. rewrite !bind_ret in *.
  destruct (bind_returns _ _ H) as ([] & Ht2 & _).
  rewrite (bind_value _ _ Ht2) in *. rewrite ?outcome_pair, ?events_pair in *.
  apply produce_end_termination_returns in Ht2.
  rewrite !bind_emit in *. rewrite ?outcome_pair, ?events_pair in *.
  exists p0, p1, e2, e1, c0, c1.
  repeat split; auto.
  - apply (getitem_inv (path self) (z := 0)); [lia | now rewrite H0].
  - apply (getitem_inv (path self) (z := 1)); [lia | now rewrite H1].
Qed.


Lemma filter_disjoint {A} (p f : A -> bool) (l : list A) :
  (forall x, p x = true -> f x = false) ->
  forallb p l = true -> filter f l = [].
Proof.
  intros Hpf. induction l as [| x l IH]; simpl; [reflexivity |].
  intros [Hx Hl]%andb_prop. now rewrite (Hpf _ Hx), IH.
Qed.

Lemma produce_end_termination_shapes (point_1 point_2 : DPoint.t)
  (term_len : float) (face_index : Z) :
  forallb is_shape
    (events (produce_end_termination self point_1 point_2 term_len face_index))
  = true.
Proof.
  destruct (DPoint.distance point_1 point_2 =? 0) eqn:Hd.
  - now rewrite produce_end_termination_zero.
  - rewrite produce_end_termination_value by exact Hd.
    now destruct (0 <? term_len).
Qed.

Lemma for_corners_app (range1 range2 : list nat) :
  forall cursor,
  for_corners host self (range1 ++ range2) cursor =
  bind (for_corners host self range1 cursor) (for_corners host self range2).
Proof.
  induction range1 as [| i range1 IH]; intros cursor; simpl.
  - now rewrite bind_ret.
  - unfold bind at 1 3.
    destruct (corner_pass host self i cursor) as [es [e | c]]; simpl.
    + reflexivity.
    + rewrite IH. unfold bind.
      destruct (for_corners host self range1 c) as [es1 [e1 | c1]]; simpl.
      * reflexivity.
      * now rewrite app_assoc.
Qed.

(** The loop of the synthesizer reaches every interior vertex: it is the
    passes before vertex [i], then the pass of vertex [i], then the passes
    after it. *)
Lemma for_corners_at (i : nat) (cursor : DPoint.t) :
  (i + 2 < List.length (path self))%nat ->
  for_corners host self (seq 0 (List.length (path self) - 2)) cursor =
  bind (for_corners host self (seq 0 i) cursor)
    (fun cursor_i =>
       bind (corner_pass host self i cursor_i)
         (for_corners host self
            (seq (S i) (List.length (path self) - 2 - S i)))).
Proof.
  intros Hi.
  replace (List.length (path self) - 2)%nat
    with (i + S (List.length (path self) - 2 - S i))%nat at 1 by lia.
  rewrite seq_app, for_corners_app. reflexivity.
Qed.

(** A filter keeps a list whose elements all pass. *)
Lemma filter_forallb {A} (p : A -> bool) (l : list A) :
  forallb p l = true -> filter p l = l.
Proof.
  induction l as [| x l IH]; simpl; [reflexivity |].
  intros [Hx Hl]%andb_prop. now rewrite Hx, IH.
Qed.

(** A loop that returns has started with a straight cell at its cursor. *)
Lemma for_corners_first_cell (j : nat) (range : list nat)
  (cursor cursor' : DPoint.t) :
  outcome (for_corners host self (j :: range) cursor) = inr cursor' ->
  exists l rot es,
    events (for_corners host self (j :: range) cursor)
    = insert_cell (WaveguideCoplanarStraight l)
        (mkDCplxTrans 1 rot false (DPoint.to_v cursor)) :: es.
Proof.
  cbn [for_corners]. intros H.
  destruct (bind_returns _ _ H) as (c1 & H1 & _ & ->).
  destruct (corner_pass_returns _ _ H1)
    as (p0 & p1 & p2 & H0 & Hp1 & Hp2 & Hsin & Htan & Habs).
  rewrite (corner_pass_value _ cursor H0 Hp1 Hp2 Hsin Htan Habs).
  rewrite events_pair. do 3 eexists. reflexivity.
Qed.

(** The cells of a run that completes, around the pass of an interior
    vertex. *)
Lemma produce_waveguide_at_vertex (i : nat) (p0 p1 p2 : DPoint.t) :
  outcome (produce_waveguide host self) = inr tt ->
  nth_error (path self) i = Some p0 ->
  nth_error (path self) (i + 1) = Some p1 ->
  nth_error (path self) (i + 2) = Some p2 ->
  let v1 := DPoint.sub p1 p0 in
  let v2 := DPoint.sub p2 p1 in
  let alpha1 := math_atan2 host (DVector.y v1) (DVector.x v1) in
  let alpha2 := math_atan2 host (DVector.y v2) (DVector.x v2) in
  let half := (math_pi - (alpha2 - alpha1)) / 2 in
  let s := vprod_sign host v1 v2 in
  let cut := float_of_int s * r self / math_tan host half in
  let distcorner := float_of_int s * r self / math_sin host half in
  let corner_pos :=
    DPoint.add_v p1
      (DVector.new (math_cos host (half + alpha2) * distcorner)
                   (math_sin host (half + alpha2) * distcorner)) in
  exists first second cursor before l' rot' after,
    nth_error (path self) 0 = Some first /\
    nth_error (path self) 1 = Some second /\
    outcome
      (for_corners host self (seq 0 i)
         (if (0 <? term1 self) && (1 <? List.length (path self))%nat
          then DPoint.sub_v first
                 (DVector.div
                    (DVector.mul (DPoint.sub second first)
                       (corner_safety_overlap self))
                    (DVector.length (DPoint.sub second first)))
          else first))
    = inr cursor /\
    outcome
      (for_corners host self (seq 0 (S i))
         (if (0 <? term1 self) && (1 <? List.length (path self))%nat
          then DPoint.sub_v first
                 (DVector.div
                    (DVector.mul (DPoint.sub second first)
                       (corner_safety_overlap self))
                    (DVector.length (DPoint.sub second first)))
          else first))
    = inr (DPoint.sub_v
             (DPoint.add_v p1
                (DVector.mul (DVector.mul v2 (1 / DVector.abs v2)) cut))
             (DVector.div (DVector.mul v2 (corner_safety_overlap self))
                          (DVector.length v2))) /\
    List.length (filter is_straight before) = i /\
    filter is_cell (events (produce_waveguide host self)) =
    before
    ++ insert_cell
         (WaveguideCoplanarStraight
            (DPoint.distance cursor p1 - cut + corner_safety_overlap self))
         (mkDCplxTrans 1
            (180 / math_pi
             * math_atan2 host (DPoint.y p1 - DPoint.y cursor)
                               (DPoint.x p1 - DPoint.x cursor))
            false (DPoint.to_v cursor))
    :: (if min_angle <=? PrimFloat.abs (alpha2 - alpha1)
        then [insert_cell
                (WaveguideCoplanarCurved (alpha2 - alpha1) (n self))
                (mkDCplxTrans 1
                   (alpha1 / math_pi * 180 - float_of_int (s * 90))
                   false (DPoint.to_v corner_pos))]
        else [])
    ++ insert_cell (WaveguideCoplanarStraight l')
         (mkDCplxTrans 1 rot' false
            (DPoint.to_v
               (DPoint.sub_v
                  (DPoint.add_v p1
                     (DVector.mul (DVector.mul v2 (1 / DVector.abs v2)) cut))
                  (DVector.div (DVector.mul v2 (corner_safety_overlap self))
                               (DVector.length v2)))))
    :: after.
Proof.
  intros H Hp0 Hp1 Hp2 v1 v2 alpha1 alpha2 half s cut distcorner corner_pos.
  destruct (produce_waveguide_returns H)
    as (q0 & q1 & e2 & e1 & c0 & c1 & H0 & H1 & _ & _ & Hc0 & _ & _ & Hc & ->).
  assert (Hi : (i + 2 < List.length (path self))%nat)
    by (apply nth_error_Some; now rewrite Hp2).
  subst c0.
  rewrite (for_corners_at i _ Hi) in Hc |- *.
  destruct (bind_returns _ _ Hc) as (cursor & Hbefore & Hc' & ->).
  destruct (bind_returns _ _ Hc') as (cursor' & Hpass & Hrest & ->).
  destruct (corner_pass_returns _ _ Hpass)
    as (r0 & r1 & r2 & R0 & R1 & R2 & Hsin & Htan & Habs).
  rewrite Hp0 in R0. rewrite Hp1 in R1. rewrite Hp2 in R2.
  injection R0 as <-. injection R1 as <-. injection R2 as <-.
  pose proof (corner_pass_value i cursor Hp0 Hp1 Hp2 Hsin Htan Habs)
    as E.
  fold v1 v2 in E. fold alpha1 alpha2 in E. fold half in E. fold s in E.
  fold cut in E. fold distcorner in E. fold corner_pos in E.
  rewrite E in Hpass |- *. rewrite outcome_pair in Hpass.
  injection Hpass as <-.
  destruct (for_corners_events _ _ Hbefore) as [Hcount Hcells].
  rewrite length_seq in Hcount.
  exists q0, q1, cursor,
    (events (for_corners host self (seq 0 i)
       (if (0 <? term1 self) && (1 <? List.length (path self))%nat
        then DPoint.sub_v q0
               (DVector.div
                  (DVector.mul (DPoint.sub q1 q0) (corner_safety_overlap self))
                  (DVector.length (DPoint.sub q1 q0)))
        else q0))).
  assert (Hterm : forall q1 q2 t,
             filter is_cell
               (events (produce_end_termination self q1 q2 t 0)) = []).
  { intros. apply filter_disjoint with (p := is_shape).
    - now intros [].
    - apply produce_end_termination_shapes. }
  assert (Hnext : exists l' rot' es,
             events (for_corners host self
                       (seq (S i) (List.length (path self) - 2 - S i))
                       (DPoint.sub_v
                          (DPoint.add_v p1
                             (DVector.mul
                                (DVector.mul v2 (1 / DVector.abs v2)) cut))
                          (DVector.div
                             (DVector.mul v2 (corner_safety_overlap self))
                             (DVector.length v2))))
             ++ [insert_cell
                   (WaveguideCoplanarStraight
                      (if 0 <? term2 self
                       then DPoint.distance c1 e1 + corner_safety_overlap self
                       else DPoint.distance c1 e1))
                   (mkDCplxTrans 1
                      (180 / math_pi
                       * math_atan2 host (DPoint.y e1 - DPoint.y c1)
                                         (DPoint.x e1 - DPoint.x c1))
                      false (DPoint.to_v c1))]
             = insert_cell (WaveguideCoplanarStraight l')
                 (mkDCplxTrans 1 rot' false
                    (DPoint.to_v
                       (DPoint.sub_v
                          (DPoint.add_v p1
                             (DVector.mul
                                (DVector.mul v2 (1 / DVector.abs v2)) cut))
                          (DVector.div
                             (DVector.mul v2 (corner_safety_overlap self))
                             (DVector.length v2)))))
               :: es).
  { destruct (List.length (path self) - 2 - S i)%nat as [| k].
    - cbn [seq for_corners] in Hrest |- *. injection Hrest as <-.
      do 3 eexists. reflexivity.
    - cbn [seq] in Hrest |- *.
      destruct (for_corners_first_cell _ _ _ Hrest) as (l' & rot' & es & ->).
      do 3 eexists. reflexivity. }
  destruct Hnext as (l' & rot' & es & Hnext).
  destruct (for_corners_events _ _ Hrest) as [_ Hcells'].
  exists l', rot', es.
  split; [exact H0 |]. split; [exact H1 |]. split; [exact Hbefore |].
  split.
  { rewrite seq_S, for_corners_app. cbn [Nat.add].
    rewrite (bind_value _ _ Hbefore), outcome_pair.
    cbn [for_corners]. rewrite E. reflexivity. }
  split; [exact Hcount |].
  rewrite !events_pair.
  rewrite filter_app, Hterm. cbn [app filter is_cell].
  rewrite !filter_app, Hterm. rewrite (filter_forallb _ _ Hcells).
  rewrite <- app_assoc. f_equal.
  cbn [app filter is_cell]. rewrite filter_app.
  rewrite (filter_forallb _ _ Hcells').
  match goal with
  | |- context [filter is_cell (if ?c then ?a else ?b)] =>
      replace (filter is_cell (if c then a else b))
        with (if c then a else b) by (now destruct c)
  end.
  fold corner_pos.
  cbn [app]. f_equal. rewrite <- app_assoc. f_equal. exact Hnext.
Qed.

(** C7, for the runs that complete: at every interior vertex [i] the run has
    inserted a curved cell, between the straight cell of the vertex and the
    next straight cell, if and only if [abs(alpha2 - alpha1) >= 1e-5]; the
    curved cell has turn angle [alpha2 - alpha1] and is placed at
    [corner_pos] with rotation [alpha1 / pi * 180 - vprod_sign(v1, v2) * 90]
    degrees. *)
Theorem produce_waveguide_arc (i : nat) (p0 p1 p2 : DPoint.t) :
  outcome (produce_waveguide host self) = inr tt ->
  nth_error (path self) i = Some p0 ->
  nth_error (path self) (i + 1) = Some p1 ->
  nth_error (path self) (i + 2) = Some p2 ->
  let v1 := DPoint.sub p1 p0 in
  let v2 := DPoint.sub p2 p1 in
  let alpha1 := math_atan2 host (DVector.y v1) (DVector.x v1) in
  let alpha2 := math_atan2 host (DVector.y v2) (DVector.x v2) in
  let half := (math_pi - (alpha2 - alpha1)) / 2 in
  let s := vprod_sign host v1 v2 in
  let distcorner := float_of_int s * r self / math_sin host half in
  let corner_pos :=
    DPoint.add_v p1
      (DVector.new (math_cos host (half + alpha2) * distcorner)
                   (math_sin host (half + alpha2) * distcorner)) in
  exists before straight arc next after,
    filter is_cell (events (produce_waveguide host self))
    = before ++ straight :: arc ++ next :: after /\
    List.length (filter is_straight before) = i /\
    is_straight straight = true /\
    is_straight next = true /\
    existsb is_curved arc = (min_angle <=? PrimFloat.abs (alpha2 - alpha1)) /\
    arc = if min_angle <=? PrimFloat.abs (alpha2 - alpha1)
          then [insert_cell
                  (WaveguideCoplanarCurved (alpha2 - alpha1) (n self))
                  (mkDCplxTrans 1
                     (alpha1 / math_pi * 180 - float_of_int (s * 90))
                     false (DPoint.to_v corner_pos))]
          else [].
Proof.
  intros H H0 H1 H2 v1 v2 alpha1 alpha2 half s distcorner corner_pos.
  destruct (produce_waveguide_at_vertex i H H0 H1 H2)
    as (first & second & cursor & before & l' & rot' & after
        & _ & _ & _ & _ & Hcount & Hcells).
  exists before. do 3 eexists. exists after.
  split; [exact Hcells |]. split; [exact Hcount |].
  repeat split. now destruct (min_angle <=? _).
Qed.

(** C8: a path with fewer than two points is refused with an exception
    ([IndexError], from [points[1]]) before anything is sent to the layout:
    no cell, no polygon, no port. *)
Theorem produce_waveguide_short_path :
  (List.length (path self) < 2)%nat ->
  produce_waveguide host self = ([], inl IndexError).
Proof.
  intros Hn. unfold produce_waveguide.
  assert (E : getitem (path self) 1 = raise IndexError)
    by (apply (getitem_short (path self) (i := 1)); lia).
  rewrite E. reflexivity.
Qed.

(** C10: a run over a path of [n >= 2] points that completes without error
    has inserted exactly [n - 1] straight cells, whatever the turns at the
    interior vertices. *)
Theorem produce_waveguide_straight_count :
  (2 <= List.length (path self))%nat ->
  outcome (produce_waveguide host self) = inr tt ->
  List.length (filter is_straight (events (produce_waveguide host self)))
  = (List.length (path self) - 1)%nat.
Proof.
  intros Hn H.
  destruct (produce_waveguide_returns H)
    as (p0 & p1 & e2 & e1 & c0 & c1 & _ & _ & _ & _ & _ & _ & _ & Hc & ->).
  rewrite events_pair.
  destruct (for_corners_events _ _ Hc) as [Hloop _].
  assert (Hterm : forall q1 q2 t,
             filter is_straight
               (events (produce_end_termination self q1 q2 t 0)) = []).
  { intros. apply filter_disjoint with (p := is_shape).
    - now intros [].
    - apply produce_end_termination_shapes. }
  rewrite filter_app, Hterm. simpl.
  rewrite !filter_app, Hterm. simpl.
  rewrite length_app, Hloop, length_seq. simpl. lia.
Qed.

(** C6: whenever the direction of the end is defined (the two points are at a
    distance other than zero), [produce_end_termination] inserts the keep-out
    rectangle, from [u * (a/2 + b + margin)] to [u * (-a/2 - b - margin)] and
    of length [term_len + margin], into [ground_grid_avoidance], also when
    [term_len] is zero, and before it a cap into [base_metal_gap_wo_grid]
    exactly when [term_len > 0].  So a run of the synthesizer with [term1 = 0]
    and [term2 = 0] that completes has inserted two polygons, the keep-out
    rectangles of the two ends of the path, and no cap. *)
Theorem termination_keepout :
  (forall (point_1 point_2 : DPoint.t) (term_len : float) (face_index : Z),
     (DPoint.distance point_1 point_2 =? 0) = false ->
     produce_end_termination self point_1 point_2 term_len face_index =
     ((if 0 <? term_len
       then [insert_shape face_index "base_metal_gap_wo_grid"
               (termination_rectangle point_1 point_2
                  (a self / 2 + b self) (- a self / 2 - b self) term_len)]
       else [])
      ++ [insert_shape face_index "ground_grid_avoidance"
            (termination_rectangle point_1 point_2
               (a self / 2 + b self + margin self)
               (- a self / 2 - b self - margin self)
               (term_len + margin self))],
      inr tt))
  /\
  (term1 self = 0 -> term2 self = 0 ->
   outcome (produce_waveguide host self) = inr tt ->
   exists first second before_last last,
     getitem (path self) 0 = ret first /\
     getitem (path self) 1 = ret second /\
     getitem (path self) (-2) = ret before_last /\
     getitem (path self) (-1) = ret last /\
     filter is_shape (events (produce_waveguide host self)) =
     [ insert_shape 0 "ground_grid_avoidance"
         (termination_rectangle second first
            (a self / 2 + b self + margin self)
            (- a self / 2 - b self - margin self)
            (0 + margin self));
       insert_shape 0 "ground_grid_avoidance"
         (termination_rectangle before_last last
            (a self / 2 + b self + margin self)
            (- a self / 2 - b self - margin self)
            (0 + margin self)) ]).
Proof.
  split.
  - intros. now apply produce_end_termination_value.
  - intros Ht1 Ht2 H.
    destruct (produce_waveguide_returns H)
      as (p0 & p1 & e2 & e1 & c0 & c1 & H0 & H1 & He2 & He1 & _ & Hd1 & Hd2
          & Hc & ->).
    exists p0, p1, e2, e1.
    split; [now apply (getitem_at (path self) 0) |].
    split; [now apply (getitem_at (path self) 1) |].
    split; [assumption |]. split; [assumption |].
    rewrite events_pair.
    destruct (for_corners_events _ _ Hc) as [_ Hcells].
    rewrite !produce_end_termination_value by assumption.
    rewrite Ht1, Ht2. rewrite !events_pair.
    change (0 <? 0) with false. cbv iota. cbn [app filter is_shape].
    rewrite filter_app.
    rewrite (filter_disjoint is_cell is_shape) by (now intros [] || exact Hcells).
    reflexivity.
Qed.

(** C4, as the code has it: on a path of three points whose turn at the middle
    point is below the threshold, a run that completes has inserted no arc and
    two straight cells, one for each leg: the first from the start cursor
    towards the middle point, the second from the advanced cursor to the last
    point. *)
Theorem collinear_three_points (p0 p1 p2 : DPoint.t) :
  path self = [p0; p1; p2] ->
  let v1 := DPoint.sub p1 p0 in
  let v2 := DPoint.sub p2 p1 in
  let alpha1 := math_atan2 host (DVector.y v1) (DVector.x v1) in
  let alpha2 := math_atan2 host (DVector.y v2) (DVector.x v2) in
  (min_angle <=? PrimFloat.abs (alpha2 - alpha1)) = false ->
  outcome (produce_waveguide host self) = inr tt ->
  let cut :=
    float_of_int (vprod_sign host v1 v2) * r self
    / math_tan host ((math_pi - (alpha2 - alpha1)) / 2) in
  let cursor0 :=
    if 0 <? term1 self
    then DPoint.sub_v p0
           (DVector.div (DVector.mul v1 (corner_safety_overlap self))
                        (DVector.length v1))
    else p0 in
  let cursor1 :=
    DPoint.sub_v
      (DPoint.add_v p1 (DVector.mul (DVector.mul v2 (1 / DVector.abs v2)) cut))
      (DVector.div (DVector.mul v2 (corner_safety_overlap self))
                   (DVector.length v2)) in
  filter is_cell (events (produce_waveguide host self)) =
  [ insert_cell
      (WaveguideCoplanarStraight
         (DPoint.distance cursor0 p1 - cut + corner_safety_overlap self))
      (mkDCplxTrans 1
         (180 / math_pi
          * math_atan2 host (DPoint.y p1 - DPoint.y cursor0)
                            (DPoint.x p1 - DPoint.x cursor0))
         false (DPoint.to_v cursor0));
    insert_cell
      (WaveguideCoplanarStraight
         (if 0 <? term2 self
          then DPoint.distance cursor1 p2 + corner_safety_overlap self
          else DPoint.distance cursor1 p2))
      (mkDCplxTrans 1
         (180 / math_pi
          * math_atan2 host (DPoint.y p2 - DPoint.y cursor1)
                            (DPoint.x p2 - DPoint.x cursor1))
         false (DPoint.to_v cursor1)) ].
Proof.
  intros Hpath v1 v2 alpha1 alpha2 Hturn H cut cursor0 cursor1.
  destruct (produce_waveguide_returns H)
    as (q0 & q1 & e2 & e1 & c0 & c1 & H0 & H1 & He2 & He1 & Hc0 & _ & _
        & Hc & ->).
  rewrite Hpath in *.
  injection H0 as <-. injection H1 as <-.
  injection He2 as <-. injection He1 as <-.
  change (1 <? List.length [p0; p1; p2])%nat with true in Hc0.
  rewrite andb_true_r in Hc0. fold v1 in Hc0. fold cursor0 in Hc0. subst c0.
  change (seq 0 (List.length [p0; p1; p2] - 2)) with [0%nat] in *.
  simpl for_corners in *.
  destruct (bind_returns _ _ Hc) as (c1' & Hpass & Hret & _).
  injection Hret as ->.
  destruct (corner_pass_returns _ _ Hpass)
    as (r0 & r1 & r2 & R0 & R1 & R2 & Hsin & Htan & Habs).
  rewrite Hpath in R0, R1, R2.
  injection R0 as <-. injection R1 as <-. injection R2 as <-.
  assert (P0 : nth_error (path self) 0 = Some p0) by now rewrite Hpath.
  assert (P1 : nth_error (path self) (0 + 1) = Some p1) by now rewrite Hpath.
  assert (P2 : nth_error (path self) (0 + 2) = Some p2) by now rewrite Hpath.
  pose proof (corner_pass_value 0 cursor0 P0 P1 P2 Hsin Htan Habs) as E.
  fold v1 v2 in E. fold alpha1 alpha2 in E. fold cut in E. fold cursor1 in E.
  rewrite Hturn in E.
  rewrite E in Hpass |- *. injection Hpass as <-.
  rewrite events_pair. cbn [bind events fst snd ret app].
  assert (Hterm : forall q1 q2 t,
             filter is_cell
               (events (produce_end_termination self q1 q2 t 0)) = []).
  { intros. apply filter_disjoint with (p := is_shape).
    - now intros [].
    - apply produce_end_termination_shapes. }
  rewrite filter_app, Hterm. cbn [filter is_cell app].
  rewrite filter_app, Hterm. reflexivity.
Qed.

End Synthesizer.

(* ------------------------------------------------------------------ *)
(** ** The synthesizer on the sample paths *)



(** C7 on the right-angle corner: a quarter turn to the left, between the
    two straight cells. *)
Lemma produce_waveguide_arc_witness :
  exists straight next,
    filter is_cell
      (events (produce_waveguide Ref.host (Sample.element Sample.corner 0 0)))
    = [ straight;
        insert_cell (WaveguideCoplanarCurved (math_pi / 2) 64)
          (mkDCplxTrans 1 (-90) false (DVector.new 70 0x1.e000000000001p+4));
        next ].
Proof.
  destruct (produce_waveguide_arc Ref.host
              (Sample.element Sample.corner 0 0) 0
              (p0 := Sample.pt 0 0) (p1 := Sample.pt 100 0)
              (p2 := Sample.pt 100 100))
    as (before & straight & arc & next & after
        & Hcells & Hcount & Hs & Hn & _ & Harc);
    try (vm_compute; reflexivity).
  vm_compute in Harc. subst arc.
  vm_compute in Hcells.
  destruct before as [| c before].
  - injection Hcells as <- <-.
    do 2 eexists. vm_compute. reflexivity.
  - injection Hcells as <- Hcells. discriminate Hcount.
Defined.

(** C7 as stated fails on the path (0,0), (1,0), (0,0): the turn at its
    interior vertex is [math.pi], far above the threshold, and no curved cell
    is inserted, because the run raises [ZeroDivisionError]. *)
Lemma reversal_no_arc :
  (min_angle <=? PrimFloat.abs (Ref.atan2 0 (-1) - Ref.atan2 0 1))%float = true
  /\
  outcome (produce_waveguide Ref.host (Sample.element Sample.reversal 0 0))
  = inl ZeroDivisionError
  /\
  filter is_curved
    (events (produce_waveguide Ref.host (Sample.element Sample.reversal 0 0)))
  = [].
Proof.
  repeat split; vm_compute; reflexivity.
Qed.

(** C8 on the path of one point. *)
Lemma produce_waveguide_short_path_witness :
  produce_waveguide Ref.host (Sample.element Sample.single 0 0)
  = ([], inl IndexError).
Proof.
  apply produce_waveguide_short_path. simpl. lia.
Defined.

(** C10 on the right-angle corner: three points, two straight cells. *)
Lemma produce_waveguide_straight_count_witness :
  List.length
    (filter is_straight
       (events (produce_waveguide Ref.host (Sample.element Sample.corner 0 0))))
  = 2%nat.
Proof.
  apply (produce_waveguide_straight_count Ref.host
           (Sample.element Sample.corner 0 0)).
  - simpl. lia.
  - vm_compute. reflexivity.
Defined.

(** C6 at the start of the right-angle corner, with and without a cap, and
    on the whole path without terminations. *)
Lemma termination_keepout_witness :
  events (produce_end_termination (Sample.element Sample.corner 0 0)
            (Sample.pt 100 0) (Sample.pt 0 0) 2 0)
  = [ insert_shape 0 "base_metal_gap_wo_grid"
        [DPoint.new 0 11; DPoint.new (-2) 11;
         DPoint.new (-2) (-11); DPoint.new 0 (-11)];
      insert_shape 0 "ground_grid_avoidance"
        [DPoint.new 0 16; DPoint.new (-7) 16;
         DPoint.new (-7) (-16); DPoint.new 0 (-16)] ]
  /\
  filter is_shape
    (events (produce_waveguide Ref.host (Sample.element Sample.corner 0 0)))
  = [ insert_shape 0 "ground_grid_avoidance"
        [DPoint.new 0 16; DPoint.new (-5) 16;
         DPoint.new (-5) (-16); DPoint.new 0 (-16)];
      insert_shape 0 "ground_grid_avoidance"
        [DPoint.new 116 100; DPoint.new 116 105;
         DPoint.new 84 105; DPoint.new 84 100] ].
Proof.
  destruct (termination_keepout Ref.host (Sample.element Sample.corner 0 0))
    as [Hend Hpath].
  split.
  - rewrite Hend by (vm_compute; reflexivity). vm_compute. reflexivity.
  - assert (Hrun : outcome (produce_waveguide Ref.host
                                (Sample.element Sample.corner 0 0)) = inr tt)
      by (vm_compute; reflexivity).
    destruct (Hpath eq_refl eq_refl Hrun)
      as (p0 & p1 & e2 & e1 & H0 & H1 & H2 & H3 & ->).
    injection H0 as <-. injection H1 as <-.
    injection H2 as <-. injection H3 as <-.
    vm_compute. reflexivity.
Defined.

(** C4 as stated fails on the straight line through (0,0), (100,0), (200,0):
    the turn at the middle point is zero, no arc is inserted, and two straight
    cells are, each of length 100.001: the first starts at (0,0), the second at
    (99.999, 0). *)
Lemma collinear_two_straight_cells :
  (min_angle <=? PrimFloat.abs (Ref.atan2 0 100 - Ref.atan2 0 100))%float = false
  /\
  outcome (produce_waveguide Ref.host (Sample.element Sample.line 0 0)) = inr tt
  /\
  filter is_cell
    (events (produce_waveguide Ref.host (Sample.element Sample.line 0 0)))
  = [ insert_cell (WaveguideCoplanarStraight 0x1.90010624dd2f2p+6)
        (mkDCplxTrans 1 0 false (DVector.new 0 0));
      insert_cell (WaveguideCoplanarStraight 0x1.90010624dd2f2p+6)
        (mkDCplxTrans 1 0 false (DVector.new 0x1.8ffef9db22d0ep+6 0)) ].
Proof.
  repeat split; vm_compute; reflexivity.
Qed.

(** C4, as the code has it, on the same line. *)
Lemma collinear_three_points_witness :
  filter is_cell
    (events (produce_waveguide Ref.host (Sample.element Sample.line 0 0)))
  = [ insert_cell (WaveguideCoplanarStraight 0x1.90010624dd2f2p+6)
        (mkDCplxTrans 1 0 false (DVector.new 0 0));
      insert_cell (WaveguideCoplanarStraight 0x1.90010624dd2f2p+6)
        (mkDCplxTrans 1 0 false (DVector.new 0x1.8ffef9db22d0ep+6 0)) ].
Proof.
  refine (eq_trans
            (collinear_three_points Ref.host
               (Sample.element Sample.line 0 0)
               (p0 := Sample.pt 0 0) (p1 := Sample.pt 100 0)
               (p2 := Sample.pt 200 0) _ _ _) _).
  - reflexivity.
  - vm_compute. reflexivity.
  - vm_compute. reflexivity.
  - vm_compute. reflexivity.
Defined.

(* ------------------------------------------------------------------ *)
(** ** The continuity verifier *)

Lemma ltb_irrefl (x : float) : (x <? x)%float = false.
Proof.
  rewrite FloatAxioms.ltb_spec. unfold SFltb, SFcompare.
  destruct (Prim2SF x) as [| [] | | [] m e]; try reflexivity;
    now rewrite Z.compare_refl, Pos.compare_cont_refl.
Qed.

Section Verifier.

Variable endpoints : list segment.
Variable tolerance : float.
Local Open Scope float_scope.

Lemma combine_seq_nth {A} (l : list A) (d : A) (start : nat) :
  combine (seq start (List.length l)) l
  = map (fun j => (j, nth (j - start) l d)) (seq start (List.length l)).
Proof.
  revert start. induction l as [| x l IH]; intros start; simpl.
  - reflexivity.
  - rewrite Nat.sub_diag. f_equal. rewrite IH.
    apply map_ext_in. intros j Hj%in_seq.
    replace (j - start)%nat with (S (j - S start)) by lia. reflexivity.
Qed.

Lemma numbered_segment_at :
  numbered endpoints
  = map (fun j => (j, segment_at endpoints j)) (seq 0 (List.length endpoints)).
Proof.
  unfold numbered, segment_at.
  rewrite (combine_seq_nth endpoints (DPoint.new 0 0, DPoint.new 0 0) 0).
  apply map_ext. intros j. now rewrite Nat.sub_0_r.
Qed.

(** The inner loop searches the other pieces. *)
Lemma found_connected_point_existsb (i : nat) (point : DPoint.t)
  (range : list nat) :
  found_connected_point endpoints tolerance i point range
  = existsb (fun jp : nat * segment =>
               negb (fst jp =? i)%nat
               && ((DPoint.distance point (fst (snd jp)) <? tolerance)
                   || (DPoint.distance point (snd (snd jp)) <? tolerance)))
      (map (fun j => (j, segment_at endpoints j)) range).
Proof.
  induction range as [| j range IH]; simpl; [reflexivity |].
  rewrite IH, (Nat.eqb_sym j i), (orb_comm (_ <? _) (_ <? _)).
  now destruct (negb _ && _).
Qed.

Lemma found_connected_point_neighbour (i : nat) (point : DPoint.t) :
  found_connected_point endpoints tolerance i point
    (seq 0 (List.length endpoints))
  = has_neighbourb endpoints tolerance i point.
Proof.
  unfold has_neighbourb.
  now rewrite found_connected_point_existsb, numbered_segment_at.
Qed.

Lemma in_numbered (j : nat) (piece : segment) :
  In (j, piece) (numbered endpoints) <-> nth_error endpoints j = Some piece.
Proof.
  rewrite numbered_segment_at, in_map_iff. unfold segment_at. split.
  - intros (k & [= -> <-] & Hk%in_seq). apply nth_error_nth'. lia.
  - intros Hj. exists j. split.
    + f_equal. now apply nth_error_nth.
    + apply in_seq. assert (j < List.length endpoints)%nat; [| lia].
      apply nth_error_Some. now rewrite Hj.
Qed.

Lemma has_neighbourb_spec (i : nat) (point : DPoint.t) :
  has_neighbourb endpoints tolerance i point = true
  <-> has_neighbour endpoints tolerance i point.
Proof.
  unfold has_neighbourb, has_neighbour. rewrite existsb_exists.
  split.
  - intros ([j piece] & Hin%in_numbered & Htest). simpl in Htest.
    apply andb_prop in Htest as [Hj Hq].
    apply negb_true_iff, Nat.eqb_neq in Hj.
    apply orb_prop in Hq as [Hq | Hq].
    + exists j, piece, (fst piece). auto.
    + exists j, piece, (snd piece). auto.
  - intros (j & piece & q & Hin%in_numbered & Hj & Hq & Hd).
    exists (j, piece). split; [assumption |]. simpl.
    apply Nat.eqb_neq in Hj. rewrite Hj. simpl.
    destruct Hq as [-> | ->]; rewrite Hd; auto using orb_true_r.
Qed.

(** What one piece adds to the counter. *)
Lemma for_segments_step (i : nat) (num : nat) :
  (if negb (DPoint.distance (fst (segment_at endpoints i))
                            (snd (segment_at endpoints i)) =? 0)
   then find_connected_point endpoints tolerance i (snd (segment_at endpoints i))
          (find_connected_point endpoints tolerance i
             (fst (segment_at endpoints i)) num)
   else num)
  = (num + List.length
             (if degenerate (segment_at endpoints i) then []
              else map (pair i)
                     (filter (fun p => negb (has_neighbourb endpoints tolerance i p))
                        [fst (segment_at endpoints i);
                         snd (segment_at endpoints i)])))%nat.
Proof.
  unfold degenerate, find_connected_point.
  rewrite !found_connected_point_neighbour.
  destruct (DPoint.distance _ _ =? 0); simpl; [lia |].
  destruct (has_neighbourb _ _ i (fst _)), (has_neighbourb _ _ i (snd _));
    simpl; lia.
Qed.

Lemma for_segments_total (range : list nat) :
  forall num, (num <= 2)%nat ->
  for_segments endpoints tolerance range num = true
  <-> (num + List.length
               (flat_map
                  (fun ip : nat * segment =>
                     if degenerate (snd ip) then []
                     else map (pair (fst ip))
                            (filter
                               (fun p => negb (has_neighbourb endpoints tolerance
                                                 (fst ip) p))
                               [fst (snd ip); snd (snd ip)]))
                  (map (fun j => (j, segment_at endpoints j)) range))
       <= 2)%nat.
Proof.
  induction range as [| i range IH]; intros num Hnum.
  - simpl. split; [lia | reflexivity].
  - cbn [for_segments map flat_map fst snd]. rewrite for_segments_step.
    rewrite length_app.
    destruct (Nat.ltb_spec 2
                (num + List.length
                         (if degenerate (segment_at endpoints i) then []
                          else map (pair i)
                                 (filter
                                    (fun p => negb (has_neighbourb endpoints
                                                      tolerance i p))
                                    [fst (segment_at endpoints i);
                                     snd (segment_at endpoints i)]))))
      as [Hbreak | Hgo].
    + split; [discriminate | lia].
    + rewrite (IH _ Hgo). lia.
Qed.

(** The verifier counts the endpoints that must connect and do not. *)
Lemma endpoints_continuous_iff :
  endpoints_continuous endpoints tolerance = true
  <-> (List.length (unmatched_endpoints endpoints tolerance) <= 2)%nat.
Proof.
  unfold endpoints_continuous, unmatched_endpoints.
  rewrite for_segments_total by lia. now rewrite <- numbered_segment_at.
Qed.

(** The endpoints that are counted, in words: an endpoint of a piece whose
    two endpoints do not coincide, with no endpoint of another piece within
    the tolerance. *)
Lemma unmatched_endpoints_spec (i : nat) (p : DPoint.t) :
  In (i, p) (unmatched_endpoints endpoints tolerance)
  <-> exists piece,
        nth_error endpoints i = Some piece /\
        degenerate piece = false /\
        (p = fst piece \/ p = snd piece) /\
        ~ has_neighbour endpoints tolerance i p.
Proof.
  unfold unmatched_endpoints. rewrite in_flat_map. split.
  - intros ([j piece] & Hin%in_numbered & Hp). cbn [fst snd] in Hp.
    destruct (degenerate piece) eqn:Hdeg; [contradiction |].
    apply in_map_iff in Hp as (q & [= -> ->] & Hq).
    apply filter_In in Hq as [Hq Hnb].
    exists piece. repeat split; auto.
    + simpl in Hq. intuition auto.
    + rewrite <- has_neighbourb_spec. now destruct (has_neighbourb _ _ _ _).
  - intros (piece & Hin%in_numbered & Hdeg & Hp & Hnb).
    exists (i, piece). split; [assumption |]. cbn [fst snd]. rewrite Hdeg.
    apply in_map, filter_In. split.
    + simpl. intuition auto.
    + rewrite <- has_neighbourb_spec in Hnb.
      now destruct (has_neighbourb _ _ _ _).
Qed.

End Verifier.

Lemma find_endpoints_events (shapes_iter : shapes_rec) :
  forall endpoints, events (find_endpoints shapes_iter endpoints) = [].
Proof.
  induction shapes_iter as [| [shape dtrans] it IH]; intros endpoints; simpl.
  - reflexivity.
  - destruct (is_path shape); [| apply IH].
    unfold path_endpoints. destruct (each_dpoint shape); [reflexivity |].
    rewrite bind_ret. apply IH.
Qed.

Lemma is_continuous_value (annotation_shapes : shapes_rec) (tolerance : float)
  (endpoints : list segment) :
  outcome (find_endpoints annotation_shapes []) = inr endpoints ->
  is_continuous annotation_shapes tolerance
  = ret (endpoints_continuous endpoints tolerance).
Proof.
  intros H. unfold is_continuous.
  rewrite (bind_value _ _ H), find_endpoints_events. reflexivity.
Qed.

(** C5: [is_continuous] returns true if and only if at most two endpoints are
    unmatched, and false otherwise.  The unmatched endpoints are the endpoints
    [p] of a piece [i] whose two endpoints do not coincide such that no
    endpoint of another piece is within the tolerance of [p]; the endpoints of
    a piece whose two endpoints coincide are not among them. *)
Theorem is_continuous_iff (annotation_shapes : shapes_rec) (tolerance : float)
  (endpoints : list segment) :
  outcome (find_endpoints annotation_shapes []) = inr endpoints ->
  (is_continuous annotation_shapes tolerance = ret true
   <-> (List.length (unmatched_endpoints endpoints tolerance) <= 2)%nat)
  /\
  (is_continuous annotation_shapes tolerance = ret false
   <-> (2 < List.length (unmatched_endpoints endpoints tolerance))%nat)
  /\
  (forall i p,
     In (i, p) (unmatched_endpoints endpoints tolerance)
     <-> exists piece,
           nth_error endpoints i = Some piece /\
           degenerate piece = false /\
           (p = fst piece \/ p = snd piece) /\
           ~ has_neighbour endpoints tolerance i p).
Proof.
  intros H.
  rewrite <- and_assoc. split; [| apply unmatched_endpoints_spec].
  rewrite (is_continuous_value _ tolerance H).
  pose proof (endpoints_continuous_iff endpoints tolerance) as E.
  destruct (endpoints_continuous endpoints tolerance); split; split;
    try discriminate; try reflexivity; intros; try lia.
Qed.

(** C9: an endpoint is taken as connected only when an endpoint of another
    piece is at a distance strictly below the tolerance; an endpoint at a
    distance equal to the tolerance is no match. *)
Theorem endpoint_match_is_strict (endpoints : list segment) (tolerance : float)
  (i : nat) (point : DPoint.t) :
  (found_connected_point endpoints tolerance i point
     (seq 0 (List.length endpoints)) = true
   <-> exists j piece q,
         nth_error endpoints j = Some piece /\ j <> i /\
         (q = fst piece \/ q = snd piece) /\
         (DPoint.distance point q <? tolerance)%float = true)
  /\
  (forall q, DPoint.distance point q = tolerance ->
             (DPoint.distance point q <? tolerance)%float = false).
Proof.
  split.
  - rewrite found_connected_point_neighbour. apply has_neighbourb_spec.
  - intros q ->. apply ltb_irrefl.
Qed.

(** C5 on two pieces half a unit apart, with a tolerance of three quarters:
    only the two ends of the whole are unmatched. *)
Lemma is_continuous_iff_witness :
  is_continuous Sample.two_shapes 0.75 = ret true.
Proof.
  apply (proj1 (is_continuous_iff Sample.two_shapes 0.75
                  (endpoints := Sample.two_pieces) eq_refl)).
  vm_compute. lia.
Defined.

(** C9 on the same pieces: the endpoint (1, 0) is at distance one half of the
    endpoint (1.5, 0), and a tolerance of one half does not connect them. *)
Lemma endpoint_match_is_strict_witness :
  (DPoint.distance (Sample.pt 1 0) (Sample.pt 1.5 0) <? 0.5)%float = false.
Proof.
  apply (proj2 (endpoint_match_is_strict Sample.two_pieces 0.5 0 (Sample.pt 1 0))).
  vm_compute. reflexivity.
Defined.

(** With the tolerance equal to the gap the verifier reports a break. *)
Lemma is_continuous_at_tolerance :
  is_continuous Sample.two_shapes 0.5 = ret false.
Proof. vm_compute. reflexivity. Qed.

(* ------------------------------------------------------------------ *)
(** ** More on the path synthesizer *)

Lemma raises_only_bind {A B} (e : exn) (m : Py A) (k : A -> Py B) :
  raises_only e m -> (forall a, raises_only e (k a)) ->
  raises_only e (bind m k).
Proof.
  unfold raises_only, bind, outcome. intros Hm Hk.
  destruct (snd m) as [e' | a]; simpl; [exact Hm | apply Hk].
Qed.

Lemma raises_only_truediv (x y : float) :
  raises_only ZeroDivisionError (truediv x y).
Proof. unfold truediv. now destruct (y =? 0)%float. Qed.

Lemma raises_only_getitem {A} (e : exn) (l : list A) (i : Z) :
  (- Z.of_nat (List.length l) <= i < Z.of_nat (List.length l))%Z ->
  raises_only e (getitem l i).
Proof.
  intros Hi. unfold getitem. cbv zeta.
  destruct (Z.ltb_spec i 0).
  - rewrite (proj2 (Z.ltb_ge _ 0)) by lia.
    destruct (nth_error l (Z.to_nat (i + Z.of_nat (List.length l)))) eqn:E;
      [exact I |].
    apply nth_error_None in E. lia.
  - rewrite (proj2 (Z.ltb_ge _ 0)) by lia.
    destruct (nth_error l (Z.to_nat i)) eqn:E; [exact I |].
    apply nth_error_None in E. lia.
Qed.

Lemma Forall_events_bind {A B} (P : event -> Prop) (m : Py A) (k : A -> Py B) :
  Forall P (events m) -> (forall a, Forall P (events (k a))) ->
  Forall P (events (bind m k)).
Proof.
  unfold bind, events. intros Hm Hk.
  destruct (snd m) as [e | a]; simpl; [exact Hm |].
  apply Forall_app. split; [exact Hm | apply Hk].
Qed.

Lemma Forall_events_getitem {A} (P : event -> Prop) (l : list A) (i : Z) :
  Forall P (events (getitem l i)).
Proof. rewrite getitem_events. constructor. Qed.

Lemma Forall_events_truediv (P : event -> Prop) (x y : float) :
  Forall P (events (truediv x y)).
Proof. unfold truediv. destruct (y =? 0)%float; constructor. Qed.

Section SynthesizerRuns.

Variable host : Host.
Variable self : Element.
Local Open Scope float_scope.

Lemma filter_shapes_of_termination (f : event -> bool)
  (point_1 point_2 : DPoint.t) (term_len : float) (face_index : Z) :
  (forall ev, is_shape ev = true -> f ev = false) ->
  filter f
    (events (produce_end_termination self point_1 point_2 term_len face_index))
  = [].
Proof.
  intros Hf. apply filter_disjoint with (p := is_shape); [exact Hf |].
  apply produce_end_termination_shapes.
Qed.

(** X1: a run that completes has registered exactly two ports, in this
    order: "a" at the first point, pointing from the second point to the
    first, and "b" at the last point, pointing from the point before it to
    the last. *)
Theorem produce_waveguide_ports :
  outcome (produce_waveguide host self) = inr tt ->
  exists first second before_last last,
    getitem (path self) 0 = ret first /\
    getitem (path self) 1 = ret second /\
    getitem (path self) (-2) = ret before_last /\
    getitem (path self) (-1) = ret last /\
    filter is_port (events (produce_waveguide host self)) =
    [ add_port "a" first (DPoint.sub first second);
      add_port "b" last (DPoint.sub last before_last) ].
Proof.
  intros H.
  destruct (produce_waveguide_returns host self H)
    as (p0 & p1 & e2 & e1 & c0 & c1 & H0 & H1 & He2 & He1 & _ & _ & _
        & Hc & ->).
  exists p0, p1, e2, e1.
  split; [now apply (getitem_at (path self) 0) |].
  split; [now apply (getitem_at (path self) 1) |].
  split; [assumption |]. split; [assumption |].
  rewrite events_pair.
  destruct (for_corners_events host self _ _ Hc) as [_ Hcells].
  rewrite filter_app, filter_shapes_of_termination by now intros [].
  cbn [app filter is_port].
  rewrite filter_app, (filter_disjoint is_cell is_port)
    by (now intros [] || exact Hcells).
  rewrite filter_app, filter_shapes_of_termination by now intros [].
  reflexivity.
Qed.

(** X2: on a path of two points at a distance other than zero the run
    always completes, whatever the host: the loop over the corners is not
    entered, and the layout receives the start termination, port "a", the end
    termination, port "b" and one straight cell from the cursor to the second
    point (the cursor is the first point, drawn back by the overlap when
    [term1 > 0]; the cell is lengthened by the overlap when [term2 > 0]). *)
Theorem produce_waveguide_two_points (p0 p1 : DPoint.t) :
  path self = [p0; p1] ->
  (DPoint.distance p1 p0 =? 0) = false ->
  (DPoint.distance p0 p1 =? 0) = false ->
  let cursor :=
    if 0 <? term1 self
    then DPoint.sub_v p0
           (DVector.div
              (DVector.mul (DPoint.sub p1 p0) (corner_safety_overlap self))
              (DVector.length (DPoint.sub p1 p0)))
    else p0 in
  produce_waveguide host self =
  (events (produce_end_termination self p1 p0 (term1 self) 0)
   ++ add_port "a" p0 (DPoint.sub p0 p1)
   :: events (produce_end_termination self p0 p1 (term2 self) 0)
   ++ [ add_port "b" p1 (DPoint.sub p1 p0);
        insert_cell
          (WaveguideCoplanarStraight
             (if 0 <? term2 self
              then DPoint.distance cursor p1 + corner_safety_overlap self
              else DPoint.distance cursor p1))
          (mkDCplxTrans 1
             (180 / math_pi
              * math_atan2 host (DPoint.y p1 - DPoint.y cursor)
                                (DPoint.x p1 - DPoint.x cursor))
             false (DPoint.to_v cursor)) ],
   inr tt).
Proof.
  intros Hpath Hd1 Hd2 cursor. unfold produce_waveguide. rewrite Hpath.
  change (getitem [p0; p1] 1) with (ret p1).
  change (getitem [p0; p1] 0) with (ret p0).
  change (getitem [p0; p1] (-1)) with (ret p1).
  change (getitem [p0; p1] (-2)) with (ret p0).
  change (1 <? List.length [p0; p1])%nat with true.
  change (seq 0 (List.length [p0; p1] - 2)) with (@nil nat).
  assert (Ht : forall q1 q2 t, (DPoint.distance q1 q2 =? 0) = false ->
             outcome (produce_end_termination self q1 q2 t 0) = inr tt).
  { intros q1 q2 t Hq. now rewrite (produce_end_termination_value self t 0 Hq). }
  unfold cursor.
  destruct (0 <? term1 self); cbn [andb for_corners]; rewrite !bind_ret;
    rewrite (bind_value _ _ (Ht _ _ _ Hd1)), bind_emit;
    rewrite ?bind_ret;
    rewrite (bind_value _ _ (Ht _ _ _ Hd2)), !bind_emit;
    reflexivity.
Qed.

(** X3: when the first two points of the path are at distance zero the run
    raises [ZeroDivisionError] (from the start termination) and has sent
    nothing to the layout. *)
Theorem produce_waveguide_repeated_start (p0 p1 : DPoint.t)
  (rest : list DPoint.t) :
  path self = p0 :: p1 :: rest ->
  (DPoint.distance p1 p0 =? 0) = true ->
  produce_waveguide host self = ([], inl ZeroDivisionError).
Proof.
  intros Hpath Hd. unfold produce_waveguide. rewrite Hpath.
  change (getitem (p0 :: p1 :: rest) 1) with (ret p1).
  change (getitem (p0 :: p1 :: rest) 0) with (ret p0).
  rewrite !bind_ret.
  rewrite (produce_end_termination_zero self (term1 self) 0 Hd).
  reflexivity.
Qed.

(** The three ways a pass of the loop can stop. *)
Lemma corner_pass_raises (i : nat) (cursor p0 p1 p2 : DPoint.t) :
  nth_error (path self) i = Some p0 ->
  nth_error (path self) (i + 1) = Some p1 ->
  nth_error (path self) (i + 2) = Some p2 ->
  let v1 := DPoint.sub p1 p0 in
  let v2 := DPoint.sub p2 p1 in
  let alpha1 := math_atan2 host (DVector.y v1) (DVector.x v1) in
  let alpha2 := math_atan2 host (DVector.y v2) (DVector.x v2) in
  let half := (math_pi - (alpha2 - alpha1)) / 2 in
  let cut :=
    float_of_int (vprod_sign host v1 v2) * r self / math_tan host half in
  ((math_sin host half =? 0) = true ->
   corner_pass host self i cursor = ([], inl ZeroDivisionError))
  /\
  ((math_sin host half =? 0) = false ->
   (math_tan host half =? 0) = true ->
   corner_pass host self i cursor = ([], inl ZeroDivisionError))
  /\
  ((math_sin host half =? 0) = false ->
   (math_tan host half =? 0) = false ->
   (DVector.abs v2 =? 0) = true ->
   corner_pass host self i cursor =
   ([insert_cell
       (WaveguideCoplanarStraight
          (DPoint.distance cursor p1 - cut + corner_safety_overlap self))
       (mkDCplxTrans 1
          (180 / math_pi
           * math_atan2 host (DPoint.y p1 - DPoint.y cursor)
                             (DPoint.x p1 - DPoint.x cursor))
          false (DPoint.to_v cursor))],
    inl ZeroDivisionError)).
Proof.
  intros H0 H1 H2 v1 v2 alpha1 alpha2 half cut.
  unfold corner_pass.
  rewrite (getitem_at _ _ H0), bind_ret.
  rewrite !(getitem_nat (path self) i (k := 1) (p := p1)) by (auto; lia).
  rewrite (getitem_nat (path self) i (k := 2) (p := p2)) by (auto; lia).
  rewrite !bind_ret.
  unfold get_corner_data. fold v1 v2. fold alpha1 alpha2. fold half.
  repeat split.
  - intros Hsin. rewrite truediv_zero by exact Hsin. reflexivity.
  - intros Hsin Htan. rewrite truediv_value by exact Hsin. rewrite !bind_ret.
    rewrite truediv_zero by exact Htan. reflexivity.
  - intros Hsin Htan Habs. rewrite truediv_value by exact Hsin.
    rewrite !bind_ret. rewrite truediv_value by exact Htan.
    rewrite bind_ret, bind_emit, ?bind_ret.
    rewrite truediv_zero by exact Habs. reflexivity.
Qed.

(** The run of a path of three points or more up to its first corner. *)
Lemma produce_waveguide_first_corner (p0 p1 p2 : DPoint.t)
  (rest : list DPoint.t) :
  path self = p0 :: p1 :: p2 :: rest ->
  (DPoint.distance p1 p0 =? 0) = false ->
  let cursor :=
    if 0 <? term1 self
    then DPoint.sub_v p0
           (DVector.div
              (DVector.mul (DPoint.sub p1 p0) (corner_safety_overlap self))
              (DVector.length (DPoint.sub p1 p0)))
    else p0 in
  forall (es : list event) (e : exn),
  corner_pass host self 0 cursor = (es, inl e) ->
  produce_waveguide host self =
  (events (produce_end_termination self p1 p0 (term1 self) 0)
   ++ add_port "a" p0 (DPoint.sub p0 p1) :: es,
   inl e).
Proof.
  intros Hpath Hd cursor es e Hpass. unfold produce_waveguide.
  assert (E1 : getitem (path self) 1 = ret p1) by now rewrite Hpath.
  assert (E0 : getitem (path self) 0 = ret p0) by now rewrite Hpath.
  rewrite E1, E0, !bind_ret.
  assert (Ht : outcome (produce_end_termination self p1 p0 (term1 self) 0)
               = inr tt)
    by now rewrite (produce_end_termination_value self (term1 self) 0 Hd).
  rewrite (bind_value _ _ Ht), bind_emit, !events_pair, !outcome_pair.
  assert (El : (1 <? List.length (path self))%nat = true) by now rewrite Hpath.
  assert (Es : seq 0 (List.length (path self) - 2)
               = 0%nat :: seq 1 (List.length rest))
    by (rewrite Hpath; cbn [List.length Nat.sub]; reflexivity).
  rewrite El, Es, andb_true_r. cbn [for_corners].
  fold cursor.
  assert (Ec : (if 0 <? term1 self
                then ret (DPoint.to_p
                        (DPoint.sub_v p0
                           (DVector.div
                              (DVector.mul (DPoint.sub p1 p0)
                                 (corner_safety_overlap self))
                              (DVector.length (DPoint.sub p1 p0)))))
                else ret p0) = ret cursor)
    by (unfold cursor; now destruct (0 <? term1 self)).
  rewrite Ec, bind_ret, Hpass. reflexivity.
Qed.

(** X4: an exception in the loop leaves the layout half drawn.  When the
    first corner has a half angle of sine zero (an exact reversal), the run
    raises [ZeroDivisionError] after the start termination and port "a" have
    been inserted, and nothing else. *)
Theorem produce_waveguide_reversal_partial (p0 p1 p2 : DPoint.t)
  (rest : list DPoint.t) :
  path self = p0 :: p1 :: p2 :: rest ->
  (DPoint.distance p1 p0 =? 0) = false ->
  let v1 := DPoint.sub p1 p0 in
  let v2 := DPoint.sub p2 p1 in
  let alpha1 := math_atan2 host (DVector.y v1) (DVector.x v1) in
  let alpha2 := math_atan2 host (DVector.y v2) (DVector.x v2) in
  (math_sin host ((math_pi - (alpha2 - alpha1)) / 2) =? 0) = true ->
  produce_waveguide host self =
  (events (produce_end_termination self p1 p0 (term1 self) 0)
   ++ [add_port "a" p0 (DPoint.sub p0 p1)],
   inl ZeroDivisionError).
Proof.
  intros Hpath Hd v1 v2 alpha1 alpha2 Hsin.
  apply (produce_waveguide_first_corner Hpath Hd).
  assert (P0 : nth_error (path self) 0 = Some p0) by now rewrite Hpath.
  assert (P1 : nth_error (path self) (0 + 1) = Some p1) by now rewrite Hpath.
  assert (P2 : nth_error (path self) (0 + 2) = Some p2) by now rewrite Hpath.
  now apply (proj1 (corner_pass_raises 0 _ P0 P1 P2)).
Qed.

(** X5: when the second and third points of the path coincide (the leg out
    of the first corner has length zero) and the sine and tangent of the half
    angle are not zero, the run raises [ZeroDivisionError] after it has
    inserted the start termination, port "a" and the first straight cell. *)
Theorem produce_waveguide_repeated_point_partial (p0 p1 p2 : DPoint.t)
  (rest : list DPoint.t) :
  path self = p0 :: p1 :: p2 :: rest ->
  (DPoint.distance p1 p0 =? 0) = false ->
  let v1 := DPoint.sub p1 p0 in
  let v2 := DPoint.sub p2 p1 in
  let alpha1 := math_atan2 host (DVector.y v1) (DVector.x v1) in
  let alpha2 := math_atan2 host (DVector.y v2) (DVector.x v2) in
  let half := (math_pi - (alpha2 - alpha1)) / 2 in
  (math_sin host half =? 0) = false ->
  (math_tan host half =? 0) = false ->
  (DVector.abs v2 =? 0) = true ->
  exists l transf,
    produce_waveguide host self =
    (events (produce_end_termination self p1 p0 (term1 self) 0)
     ++ [add_port "a" p0 (DPoint.sub p0 p1);
         insert_cell (WaveguideCoplanarStraight l) transf],
     inl ZeroDivisionError).
Proof.
  intros Hpath Hd v1 v2 alpha1 alpha2 half Hsin Htan Habs.
  do 2 eexists.
  apply (produce_waveguide_first_corner Hpath Hd).
  assert (P0 : nth_error (path self) 0 = Some p0) by now rewrite Hpath.
  assert (P1 : nth_error (path self) (0 + 1) = Some p1) by now rewrite Hpath.
  assert (P2 : nth_error (path self) (0 + 2) = Some p2) by now rewrite Hpath.
  now apply (proj2 (proj2 (corner_pass_raises 0 _ P0 P1 P2))).
Qed.

Ltac raises_only_step :=
  match goal with
  | |- raises_only _ (bind _ _) => apply raises_only_bind; [| intros]
  | |- raises_only _ (ret _) => exact I
  | |- raises_only _ (emit _) => exact I
  | |- raises_only _ (truediv _ _) => apply raises_only_truediv
  | |- raises_only _ (getitem _ _) => apply raises_only_getitem; lia
  | |- raises_only _ (if ?c then _ else _) => destruct c
  | |- raises_only _ (match ?x with pair _ _ => _ end) => destruct x
  end.

Ltac events_step :=
  match goal with
  | |- Forall _ (events (bind _ _)) => apply Forall_events_bind; [| intros]
  | |- Forall _ (events (ret _)) => constructor
  | |- Forall _ (events (emit _)) =>
      constructor; [cbn; auto | constructor]
  | |- Forall _ (events (truediv _ _)) => apply Forall_events_truediv
  | |- Forall _ (events (getitem _ _)) => apply Forall_events_getitem
  | |- Forall _ (events (if ?c then _ else _)) => destruct c
  | |- Forall _ (events (match ?x with pair _ _ => _ end)) => destruct x
  end.

Lemma raises_only_termination (point_1 point_2 : DPoint.t) (term_len : float)
  (face_index : Z) :
  raises_only ZeroDivisionError
    (produce_end_termination self point_1 point_2 term_len face_index).
Proof. unfold produce_end_termination. repeat raises_only_step. Qed.

Lemma raises_only_corner_pass (i : nat) (cursor : DPoint.t) :
  (i + 2 < List.length (path self))%nat ->
  raises_only ZeroDivisionError (corner_pass host self i cursor).
Proof.
  intros Hi. unfold corner_pass, get_corner_data. repeat raises_only_step.
Qed.

Lemma raises_only_for_corners (range : list nat) :
  (forall i, In i range -> (i + 2 < List.length (path self))%nat) ->
  forall cursor,
  raises_only ZeroDivisionError (for_corners host self range cursor).
Proof.
  induction range as [| i range IH]; intros Hr cursor; simpl.
  - exact I.
  - apply raises_only_bind.
    + apply raises_only_corner_pass. apply Hr. now left.
    + intros c. apply IH. intros j Hj. apply Hr. now right.
Qed.

(** X6: the run raises [IndexError] exactly when the path has fewer than two
    points; on a longer path no index is ever out of range. *)
Theorem produce_waveguide_exceptions :
  outcome (produce_waveguide host self) = inl IndexError
  <-> (List.length (path self) < 2)%nat.
Proof.
  destruct (Nat.lt_ge_cases (List.length (path self)) 2) as [Hn | Hn].
  - assert (E : produce_waveguide host self = ([], inl IndexError)).
    { unfold produce_waveguide.
      assert (E1 : getitem (path self) 1 = raise IndexError)
        by (apply (getitem_short (path self) (i := 1)); lia).
      now rewrite E1. }
    rewrite E. tauto.
  - assert (R : raises_only ZeroDivisionError (produce_waveguide host self)).
    { unfold produce_waveguide.
      repeat first
        [ apply raises_only_termination
        | apply raises_only_for_corners;
          intros i Hi%in_seq; lia
        | raises_only_step ]. }
    unfold raises_only in R.
    destruct (outcome (produce_waveguide host self)) as [e | []].
    + subst e. split; [discriminate | lia].
    + split; [discriminate | lia].
Qed.

Lemma events_termination (point_1 point_2 : DPoint.t) (term_len : float) :
  Forall element_event
    (events (produce_end_termination self point_1 point_2 term_len 0)).
Proof. unfold produce_end_termination. repeat events_step. Qed.

Lemma events_corner_pass (i : nat) (cursor : DPoint.t) :
  Forall element_event (events (corner_pass host self i cursor)).
Proof. unfold corner_pass, get_corner_data. repeat events_step. Qed.

Lemma events_for_corners (range : list nat) :
  forall cursor,
  Forall element_event (events (for_corners host self range cursor)).
Proof.
  induction range as [| i range IH]; intros cursor; simpl.
  - constructor.
  - apply Forall_events_bind; [apply events_corner_pass | apply IH].
Qed.

(** X7: whatever the outcome of the run, every cell it has inserted is
    placed with magnification 1 and without mirroring, every polygon is on
    face 0 in [base_metal_gap_wo_grid] or [ground_grid_avoidance], and every
    port is named "a" or "b". *)
Theorem produce_waveguide_events :
  Forall element_event (events (produce_waveguide host self)).
Proof.
  unfold produce_waveguide.
  repeat first
    [ apply events_termination | apply events_for_corners | events_step ].
Qed.

Lemma cells_straight_or_curved (es : list event) :
  List.length (filter is_cell es)
  = (List.length (filter is_straight es)
     + List.length (filter is_curved es))%nat.
Proof.
  induction es as [| [[] | |] es IH]; simpl; lia.
Qed.

Lemma for_corners_curved (range : list nat) :
  forall cursor cursor',
  outcome (for_corners host self range cursor) = inr cursor' ->
  (List.length (filter is_curved (events (for_corners host self range cursor)))
   <= List.length range)%nat.
Proof.
  induction range as [| i range IH]; intros cursor cursor' H.
  - simpl. lia.
  - simpl in H |- *.
    destruct (bind_returns _ _ H) as (c1 & H1 & Hrest & ->).
    destruct (corner_pass_returns host self _ _ H1)
      as (p0 & p1 & p2 & H0 & Hp1 & Hp2 & Hsin & Htan & Habs).
    rewrite (corner_pass_value host self _ cursor H0 Hp1 Hp2 Hsin Htan Habs).
    rewrite events_pair, filter_app, length_app.
    specialize (IH _ _ Hrest).
    destruct (min_angle <=? _); simpl; lia.
Qed.

(** X8: a run over [n] points that completes has inserted at most [n - 2]
    curved cells, and between [n - 1] and [2 n - 3] cells in all. *)
Theorem produce_waveguide_cell_count :
  outcome (produce_waveguide host self) = inr tt ->
  (List.length (filter is_curved (events (produce_waveguide host self)))
   <= List.length (path self) - 2)%nat
  /\
  (List.length (path self) - 1
   <= List.length (filter is_cell (events (produce_waveguide host self)))
   <= 2 * List.length (path self) - 3)%nat.
Proof.
  intros H.
  destruct (produce_waveguide_returns host self H)
    as (p0 & p1 & e2 & e1 & c0 & c1 & H0 & H1 & _ & _ & _ & _ & _ & Hc & ->).
  assert (Hn : (2 <= List.length (path self))%nat).
  { assert (1 < List.length (path self))%nat; [| lia].
    apply nth_error_Some. now rewrite H1. }
  rewrite events_pair.
  pose proof (for_corners_curved _ _ Hc) as Hcurved.
  destruct (for_corners_events host self _ _ Hc) as [Hstraight Hcells].
  rewrite length_seq in Hcurved, Hstraight.
  rewrite !filter_app, !filter_shapes_of_termination by now intros [].
  cbn [app filter is_curved is_cell List.length].
  rewrite !filter_app, !filter_shapes_of_termination by now intros [].
  cbn [app filter is_curved is_cell List.length].
  rewrite !length_app. cbn [List.length]. rewrite !Nat.add_0_r.
  split; [exact Hcurved |].
  rewrite cells_straight_or_curved. lia.
Qed.

End SynthesizerRuns.

(** X9: [produce_end_termination] raises [ZeroDivisionError] exactly when its
    two points are at distance zero, and then it has inserted nothing;
    otherwise it completes with one or two polygons.  It never inserts a cell
    or a port. *)
Theorem produce_end_termination_outcomes (elem : Element)
  (point_1 point_2 : DPoint.t) (term_len : float) (face_index : Z) :
  (outcome (produce_end_termination elem point_1 point_2 term_len face_index)
   = inl ZeroDivisionError
   <-> (DPoint.distance point_1 point_2 =? 0)%float = true)
  /\
  (outcome (produce_end_termination elem point_1 point_2 term_len face_index)
   = inr tt
   <-> (DPoint.distance point_1 point_2 =? 0)%float = false)
  /\
  ((DPoint.distance point_1 point_2 =? 0)%float = true ->
   events (produce_end_termination elem point_1 point_2 term_len face_index)
   = [])
  /\
  ((DPoint.distance point_1 point_2 =? 0)%float = false ->
   1 <= List.length
          (events (produce_end_termination elem point_1 point_2 term_len
                     face_index)) <= 2)%nat
  /\
  forallb is_shape
    (events (produce_end_termination elem point_1 point_2 term_len face_index))
  = true.
Proof.
  split; [| split; [| split; [| split]]].
  - destruct (DPoint.distance point_1 point_2 =? 0)%float eqn:Hd.
    + now rewrite (produce_end_termination_zero elem term_len face_index Hd).
    + now rewrite (produce_end_termination_value elem term_len face_index Hd).
  - destruct (DPoint.distance point_1 point_2 =? 0)%float eqn:Hd.
    + now rewrite (produce_end_termination_zero elem term_len face_index Hd).
    + now rewrite (produce_end_termination_value elem term_len face_index Hd).
  - intros Hd.
    now rewrite (produce_end_termination_zero elem term_len face_index Hd).
  - intros Hd.
    rewrite (produce_end_termination_value elem term_len face_index Hd).
    rewrite events_pair. destruct (0 <? term_len)%float; simpl; lia.
  - apply produce_end_termination_shapes.
Qed.

(* ------------------------------------------------------------------ *)
(** ** More runs on the sample paths *)

(** X1 on the right-angle corner. *)
Lemma produce_waveguide_ports_witness :
  filter is_port
    (events (produce_waveguide Ref.host (Sample.element Sample.corner 0 0)))
  = [ add_port "a" (DPoint.new 0 0) (DVector.new (-100) 0);
      add_port "b" (DPoint.new 100 100) (DVector.new 0 100) ].
Proof.
  assert (Hrun : outcome (produce_waveguide Ref.host
                            (Sample.element Sample.corner 0 0)) = inr tt)
    by (vm_compute; reflexivity).
  destruct (produce_waveguide_ports Ref.host (Sample.element Sample.corner 0 0)
              Hrun)
    as (p0 & p1 & e2 & e1 & H0 & H1 & H2 & H3 & ->).
  injection H0 as <-. injection H1 as <-.
  injection H2 as <-. injection H3 as <-.
  vm_compute. reflexivity.
Defined.

(** X2 on the path from (0,0) to (100,0), with a termination at its end, and
    on the diagonal from (0,0) to (70,70), with a termination at its start:
    there the cursor is drawn back along the diagonal by the overlap, each
    coordinate being [70 * overlap] multiplied by the reciprocal of the
    length of the leg. *)
Lemma produce_waveguide_two_points_witness :
  (outcome (produce_waveguide Ref.host (Sample.element Sample2.two_points 0 2))
   = inr tt
   /\
   filter is_cell
     (events
        (produce_waveguide Ref.host (Sample.element Sample2.two_points 0 2)))
   = [ insert_cell (WaveguideCoplanarStraight 0x1.90010624dd2f2p+6)
         (mkDCplxTrans 1 0 false (DVector.new 0 0)) ])
  /\
  (outcome (produce_waveguide Ref.host (Sample.element Sample2.diagonal 2 0))
   = inr tt
   /\
   exists rot,
     filter is_cell
       (events
          (produce_waveguide Ref.host (Sample.element Sample2.diagonal 2 0)))
     = [ insert_cell (WaveguideCoplanarStraight 0x1.8bfbda268fc5ap+6)
           (mkDCplxTrans 1 rot false
              (DVector.new (-0x1.72ba43fff3718p-11)
                           (-0x1.72ba43fff3718p-11))) ]).
Proof.
  split.
  - rewrite (produce_waveguide_two_points Ref.host
               (Sample.element Sample2.two_points 0 2)
               (p0 := Sample.pt 0 0) (p1 := Sample.pt 100 0)
               eq_refl eq_refl eq_refl).
    split; vm_compute; reflexivity.
  - rewrite (produce_waveguide_two_points Ref.host
               (Sample.element Sample2.diagonal 2 0)
               (p0 := Sample.pt 0 0) (p1 := Sample.pt 70 70)
               eq_refl eq_refl eq_refl).
    split; [reflexivity |]. eexists. vm_compute. reflexivity.
Defined.

(** X3 on a path that starts with the same point twice. *)
Lemma produce_waveguide_repeated_start_witness :
  produce_waveguide Ref.host (Sample.element Sample2.repeated_start 0 0)
  = ([], inl ZeroDivisionError).
Proof.
  apply (produce_waveguide_repeated_start Ref.host
           (Sample.element Sample2.repeated_start 0 0)
           (p0 := Sample.pt 0 0) (p1 := Sample.pt 0 0)
           (rest := [Sample.pt 100 0])); reflexivity.
Defined.

(** X4 on the path that turns back on itself. *)
Lemma produce_waveguide_reversal_partial_witness :
  produce_waveguide Ref.host (Sample.element Sample.reversal 0 0)
  = ([ insert_shape 0 "ground_grid_avoidance"
         [DPoint.new 0 16; DPoint.new (-5) 16;
          DPoint.new (-5) (-16); DPoint.new 0 (-16)];
       add_port "a" (DPoint.new 0 0) (DVector.new (-1) 0) ],
     inl ZeroDivisionError).
Proof.
  rewrite (produce_waveguide_reversal_partial Ref.host
             (Sample.element Sample.reversal 0 0)
             (p0 := Sample.pt 0 0) (p1 := Sample.pt 1 0) (p2 := Sample.pt 0 0)
             (rest := []) eq_refl eq_refl eq_refl).
  vm_compute. reflexivity.
Defined.

(** X5 on a path whose corner point is repeated. *)
Lemma produce_waveguide_repeated_point_partial_witness :
  exists l transf,
    produce_waveguide Ref.host (Sample.element Sample2.repeated_inside 0 0)
    = ([ insert_shape 0 "ground_grid_avoidance"
           [DPoint.new 0 16; DPoint.new (-5) 16;
            DPoint.new (-5) (-16); DPoint.new 0 (-16)];
         add_port "a" (DPoint.new 0 0) (DVector.new (-100) 0);
         insert_cell (WaveguideCoplanarStraight l) transf ],
       inl ZeroDivisionError).
Proof.
  destruct (produce_waveguide_repeated_point_partial Ref.host
              (Sample.element Sample2.repeated_inside 0 0)
              (p0 := Sample.pt 0 0) (p1 := Sample.pt 100 0)
              (p2 := Sample.pt 100 0) (rest := [Sample.pt 100 100])
              eq_refl eq_refl eq_refl eq_refl eq_refl)
    as (l & transf & E).
  exists l, transf. rewrite E. vm_compute. reflexivity.
Defined.

(** X8 on the right-angle corner: one arc, three cells. *)
Lemma produce_waveguide_cell_count_witness :
  (List.length
     (filter is_curved
        (events (produce_waveguide Ref.host (Sample.element Sample.corner 0 0))))
   <= 1)%nat.
Proof.
  apply (proj1 (produce_waveguide_cell_count Ref.host
                  (Sample.element Sample.corner 0 0) eq_refl)).
Defined.

(** X9 at the start of the right-angle corner. *)
Lemma produce_end_termination_outcomes_witness :
  (1 <= List.length
          (events (produce_end_termination (Sample.element Sample.corner 0 0)
                     (Sample.pt 100 0) (Sample.pt 0 0) 2 0)) <= 2)%nat.
Proof.
  apply (produce_end_termination_outcomes (Sample.element Sample.corner 0 0)
           (Sample.pt 100 0) (Sample.pt 0 0) 2 0).
  reflexivity.
Defined.

(* ------------------------------------------------------------------ *)
(** ** More on the continuity verifier *)

Lemma length_flat_map_in {A B} (f : A -> list B) (l : list A) (x : A) :
  In x l -> (List.length (f x) <= List.length (flat_map f l))%nat.
Proof.
  intros (l1 & l2 & ->)%in_split.
  rewrite flat_map_app, length_app. simpl. rewrite length_app. lia.
Qed.

Lemma length_flat_map_in2 {A B} (f : A -> list B) (l : list A) (x y : A) :
  In x l -> In y l -> x <> y ->
  (List.length (f x) + List.length (f y) <= List.length (flat_map f l))%nat.
Proof.
  intros (l1 & l2 & ->)%in_split Hy Hxy.
  rewrite flat_map_app, length_app. simpl. rewrite length_app.
  apply in_app_or in Hy as [Hy | [Hy | Hy]]; [| congruence |].
  - pose proof (@length_flat_map_in _ _ f l1 y Hy). lia.
  - pose proof (@length_flat_map_in _ _ f l2 y Hy). lia.
Qed.

Lemma SFltb_leb_trans (x y z : spec_float) :
  SFltb x y = true -> SFleb y z = true -> SFltb x z = true.
Proof.
  unfold SFltb, SFleb, SFcompare.
  destruct x as [sx | sx | | sx mx ex], y as [sy | sy | | sy my ey],
    z as [sz | sz | | sz mz ez];
    try destruct sx; try destruct sy; try destruct sz;
    try discriminate; try reflexivity;
    change (Pos.compare_cont Eq) with Pos.compare;
    repeat match goal with
      | |- context [Z.compare ?a ?b] => destruct (Z.compare_spec a b)
      | |- context [Pos.compare ?a ?b] => destruct (Pos.compare_spec a b)
      end;
    simpl; try discriminate; try reflexivity; intros; lia.
Qed.

Lemma ltb_leb_trans (x y z : float) :
  (x <? y)%float = true -> (y <=? z)%float = true -> (x <? z)%float = true.
Proof.
  rewrite !FloatAxioms.ltb_spec, FloatAxioms.leb_spec.
  apply SFltb_leb_trans.
Qed.

Section Pieces.

Variable tolerance : float.
Local Open Scope float_scope.

(** Searching the numbered pieces for a neighbour, when the number to skip is
    not among them. *)
Lemma existsb_numbered_skip (i start : nat) (p : DPoint.t) (l : list segment) :
  (i < start \/ start + List.length l <= i)%nat ->
  existsb (fun jp : nat * segment =>
             negb (fst jp =? i)%nat
             && ((DPoint.distance p (fst (snd jp)) <? tolerance)
                 || (DPoint.distance p (snd (snd jp)) <? tolerance)))
          (combine (seq start (List.length l)) l)
  = near_any tolerance l p.
Proof.
  revert start. induction l as [| o l IH]; intros start Hi; simpl in *.
  - reflexivity.
  - rewrite IH by lia.
    destruct (Nat.eqb_spec start i); [lia |]. reflexivity.
Qed.

Lemma existsb_numbered_at (start : nat) (p : DPoint.t)
  (before : list segment) (piece : segment) (rest : list segment) :
  existsb (fun jp : nat * segment =>
             negb (fst jp =? start + List.length before)%nat
             && ((DPoint.distance p (fst (snd jp)) <? tolerance)
                 || (DPoint.distance p (snd (snd jp)) <? tolerance)))
          (combine (seq start (List.length (before ++ piece :: rest)))
                   (before ++ piece :: rest))
  = near_any tolerance (before ++ rest) p.
Proof.
  revert start. induction before as [| o before IH]; intros start; simpl.
  - rewrite Nat.add_0_r, Nat.eqb_refl. simpl.
    apply existsb_numbered_skip. lia.
  - replace (start + S (List.length before))%nat
      with (S start + List.length before)%nat by lia.
    rewrite IH.
    destruct (Nat.eqb_spec start (S start + List.length before)); [lia |].
    reflexivity.
Qed.

Lemma has_neighbourb_near_any (p : DPoint.t) (before : list segment)
  (piece : segment) (rest : list segment) :
  has_neighbourb (before ++ piece :: rest) tolerance (List.length before) p
  = near_any tolerance (before ++ rest) p.
Proof.
  unfold has_neighbourb, numbered.
  exact (existsb_numbered_at 0 p before piece rest).
Qed.

(** The count of the verifier, piece by piece. *)
Lemma unmatched_endpoints_loose_from (before rest : list segment) :
  List.length
    (flat_map
       (fun ip : nat * segment =>
          if degenerate (snd ip) then []
          else map (pair (fst ip))
                 (filter
                    (fun p => negb (has_neighbourb (before ++ rest) tolerance
                                      (fst ip) p))
                    [fst (snd ip); snd (snd ip)]))
       (combine (seq (List.length before) (List.length rest)) rest))
  = loose_total tolerance before rest.
Proof.
  revert before. induction rest as [| piece rest IH]; intros before.
  - reflexivity.
  - cbn [List.length seq combine flat_map loose_total fst snd].
    rewrite length_app. f_equal.
    + unfold loose_ends. destruct (degenerate piece); [reflexivity |].
      rewrite length_map. f_equal. apply filter_ext. intros p.
      now rewrite has_neighbourb_near_any.
    + specialize (IH (before ++ [piece])).
      rewrite <- app_assoc, length_app in IH. cbn [app List.length] in IH.
      rewrite Nat.add_1_r in IH. exact IH.
Qed.

Lemma unmatched_endpoints_loose (endpoints : list segment) :
  List.length (unmatched_endpoints endpoints tolerance)
  = loose_total tolerance [] endpoints.
Proof.
  exact (unmatched_endpoints_loose_from [] endpoints).
Qed.

Lemma endpoints_continuous_loose (endpoints : list segment) :
  endpoints_continuous endpoints tolerance
  = (loose_total tolerance [] endpoints <=? 2)%nat.
Proof.
  pose proof (endpoints_continuous_iff endpoints tolerance) as E.
  rewrite unmatched_endpoints_loose in E.
  destruct (Nat.leb_spec (loose_total tolerance [] endpoints) 2);
    destruct (endpoints_continuous endpoints tolerance); intuition (auto; lia).
Qed.

Lemma near_any_perm (others others' : list segment) (p : DPoint.t) :
  Permutation others others' ->
  near_any tolerance others p = near_any tolerance others' p.
Proof.
  unfold near_any. induction 1 as [| o l l' _ IH | o o' l | l l' l'' _ IH1 _ IH2];
    simpl.
  - reflexivity.
  - now rewrite IH.
  - match goal with
    | |- ?a || (?b || ?c) = _ => now destruct a, b
    end.
  - now rewrite IH1.
Qed.

Lemma loose_ends_perm (others others' : list segment) (piece : segment) :
  Permutation others others' ->
  loose_ends tolerance others piece = loose_ends tolerance others' piece.
Proof.
  intros Hp. unfold loose_ends. destruct (degenerate piece); [reflexivity |].
  f_equal. apply filter_ext. intros p. now rewrite (near_any_perm p Hp).
Qed.

Lemma loose_total_perm_before (rest : list segment) :
  forall before before',
  Permutation before before' ->
  loose_total tolerance before rest = loose_total tolerance before' rest.
Proof.
  induction rest as [| piece rest IH]; intros before before' Hp; simpl.
  - reflexivity.
  - rewrite (loose_ends_perm piece (Permutation_app_tail rest Hp)).
    now rewrite (IH _ _ (Permutation_app_tail [piece] Hp)).
Qed.

Lemma loose_total_perm (rest rest' : list segment) :
  Permutation rest rest' ->
  forall before,
  loose_total tolerance before rest = loose_total tolerance before rest'.
Proof.
  induction 1 as [| piece l l' Hp IH | a b l | l l' l'' _ IH1 _ IH2];
    intros before; simpl.
  - reflexivity.
  - rewrite (loose_ends_perm piece (Permutation_app_head before Hp)).
    now rewrite IH.
  - rewrite !Nat.add_assoc.
    rewrite (loose_ends_perm b (others := before ++ a :: l)
               (others' := (before ++ [a]) ++ l))
      by (rewrite <- app_assoc; reflexivity).
    rewrite (loose_ends_perm a (others := (before ++ [b]) ++ l)
               (others' := before ++ b :: l))
      by (rewrite <- app_assoc; reflexivity).
    rewrite (loose_total_perm_before l
               (before := (before ++ [b]) ++ [a])
               (before' := (before ++ [a]) ++ [b])).
    + lia.
    + rewrite <- !app_assoc. apply Permutation_app_head. apply perm_swap.
  - now rewrite IH1.
Qed.

(** The count does not depend on the order of the pieces. *)
Lemma endpoints_continuous_perm (endpoints endpoints' : list segment) :
  Permutation endpoints endpoints' ->
  endpoints_continuous endpoints tolerance
  = endpoints_continuous endpoints' tolerance.
Proof.
  intros Hp. rewrite !endpoints_continuous_loose.
  now rewrite (loose_total_perm Hp []).
Qed.

Lemma near_any_intro (others : list segment) (o : segment) (p : DPoint.t) :
  In o others ->
  (DPoint.distance p (fst o) <? tolerance) = true
  \/ (DPoint.distance p (snd o) <? tolerance) = true ->
  near_any tolerance others p = true.
Proof.
  intros Hin Hd. unfold near_any. apply existsb_exists. exists o.
  split; [assumption |]. apply orb_true_iff. exact Hd.
Qed.

Lemma loose_ends_bound (others : list segment) (piece : segment) :
  (loose_ends tolerance others piece
   <= (if near_any tolerance others (fst piece) then 0 else 1)
      + (if near_any tolerance others (snd piece) then 0 else 1))%nat.
Proof.
  unfold loose_ends. destruct (degenerate piece); [lia |]. simpl.
  destruct (near_any _ _ (fst piece)), (near_any _ _ (snd piece)); simpl; lia.
Qed.

Lemma chain_loose_total (rest : list segment) :
  forall before,
  chain tolerance rest = true ->
  (before = []
   \/ exists a, In a before
               /\ forall b rest', rest = b :: rest' ->
                                  linked tolerance a b = true) ->
  (loose_total tolerance before rest
   <= (match before with [] => 1 | _ => 0 end)
      + (match rest with [] => 0 | _ => 1 end))%nat.
Proof.
  induction rest as [| x rest IH]; intros before Hchain Hbefore.
  - simpl. lia.
  - cbn [loose_total].
    assert (Hrest : chain tolerance rest = true
                    /\ forall b rest', rest = b :: rest' ->
                                       linked tolerance x b = true).
    { destruct rest as [| y rest']; [split; [reflexivity | discriminate] |].
      cbn [chain] in Hchain. apply andb_prop in Hchain as [Hl Hc].
      split; [exact Hc |]. now intros b r [= <- <-]. }
    destruct Hrest as [Hchain' Hnext].
    specialize (IH (before ++ [x]) Hchain').
    assert (Hx : (loose_total tolerance (before ++ [x]) rest
                  <= match rest with [] => 0 | _ => 1 end)%nat).
    { assert (Hgo : (loose_total tolerance (before ++ [x]) rest
                     <= match before ++ [x] with [] => 1 | _ => 0 end
                        + match rest with [] => 0 | _ => 1 end)%nat).
      { apply IH. right. exists x. split; [| exact Hnext].
        apply in_or_app. right. now left. }
      destruct (before ++ [x]) eqn:E; [now destruct before | exact Hgo]. }
    pose proof (loose_ends_bound (before ++ rest) x) as Hends.
    assert (Hfst : before <> [] ->
                   near_any tolerance (before ++ rest) (fst x) = true).
    { intros Hne. destruct Hbefore as [-> | (a & Ha & Hlink)]; [easy |].
      specialize (Hlink x rest eq_refl). unfold linked in Hlink.
      apply andb_prop in Hlink as [_ Hl].
      apply (near_any_intro _ a); [apply in_or_app; now left | now right]. }
    assert (Hsnd : rest <> [] ->
                   near_any tolerance (before ++ rest) (snd x) = true).
    { intros Hne. destruct rest as [| y rest']; [easy |].
      specialize (Hnext y rest' eq_refl). unfold linked in Hnext.
      apply andb_prop in Hnext as [Hl _].
      apply (near_any_intro _ y); [apply in_or_app; right; now left | now left]. }
    destruct before as [| b0 before'], rest as [| y rest'];
      try (rewrite Hfst in Hends by discriminate);
      try (rewrite Hsnd in Hends by discriminate);
      destruct (near_any _ _ (fst x)), (near_any _ _ (snd x));
      simpl in *; lia.
Qed.

(** X10: pieces given in order, the end of each within the tolerance of the
    start of the next, are found continuous, however many they are. *)
Theorem chain_is_continuous (endpoints : list segment) :
  chain tolerance endpoints = true ->
  endpoints_continuous endpoints tolerance = true.
Proof.
  intros Hchain. rewrite endpoints_continuous_loose. apply Nat.leb_le.
  pose proof (@chain_loose_total endpoints [] Hchain (or_introl eq_refl)) as H.
  destruct endpoints; simpl in *; lia.
Qed.

Lemma loose_total_nondegenerate (rest : list segment) :
  forall before,
  (loose_total tolerance before rest
   <= 2 * List.length (filter (fun piece => negb (degenerate piece)) rest))%nat.
Proof.
  induction rest as [| x rest IH]; intros before; simpl; [lia |].
  specialize (IH (before ++ [x])). unfold loose_ends.
  destruct (degenerate x); simpl; [lia |].
  destruct (near_any _ _ (fst x)), (near_any _ _ (snd x)); simpl; lia.
Qed.

(** X11: a collection in which at most one piece has two endpoints that do
    not coincide is found continuous: in particular no piece at all, one
    piece, or pieces of no length only. *)
Theorem lone_piece_is_continuous (endpoints : list segment) :
  (List.length (filter (fun piece => negb (degenerate piece)) endpoints) <= 1)%nat ->
  endpoints_continuous endpoints tolerance = true.
Proof.
  intros Hone. rewrite endpoints_continuous_loose. apply Nat.leb_le.
  pose proof (loose_total_nondegenerate endpoints []). lia.
Qed.

(** X12: two pieces whose endpoints do not coincide, one with no neighbour
    at either endpoint and the other with no neighbour at one endpoint at
    least, make the verifier report a break. *)
Theorem separate_pieces_break (endpoints : list segment) (i j : nat)
  (a b : segment) :
  i <> j ->
  nth_error endpoints i = Some a ->
  nth_error endpoints j = Some b ->
  degenerate a = false ->
  degenerate b = false ->
  ~ has_neighbour endpoints tolerance i (fst a) ->
  ~ has_neighbour endpoints tolerance i (snd a) ->
  ~ has_neighbour endpoints tolerance j (fst b)
  \/ ~ has_neighbour endpoints tolerance j (snd b) ->
  endpoints_continuous endpoints tolerance = false.
Proof.
  intros Hij Ha Hb Hda Hdb Ha1 Ha2 Hb12.
  destruct (endpoints_continuous endpoints tolerance) eqn:E; [| reflexivity].
  apply endpoints_continuous_iff in E. exfalso.
  unfold unmatched_endpoints in E.
  apply in_numbered in Ha, Hb.
  pose proof (@length_flat_map_in2 _ _
                (fun ip : nat * segment =>
                   if degenerate (snd ip) then []
                   else map (pair (fst ip))
                          (filter
                             (fun p => negb (has_neighbourb endpoints tolerance
                                               (fst ip) p))
                             [fst (snd ip); snd (snd ip)]))
                _ _ _ Ha Hb ltac:(congruence)) as Hlen.
  match type of E with
  | (?n <= 2)%nat => set (total := n) in *
  end.
  cbn [fst snd] in Hlen. rewrite Hda, Hdb, !length_map in Hlen.
  rewrite <- has_neighbourb_spec in Ha1, Ha2, Hb12, Hb12.
  cbn [filter] in Hlen.
  apply not_true_iff_false in Ha1, Ha2. rewrite Ha1, Ha2 in Hlen.
  destruct Hb12 as [Hb1 | Hb1]; apply not_true_iff_false in Hb1;
    rewrite Hb1 in Hlen;
    [destruct (has_neighbourb endpoints tolerance j (snd b))
    | destruct (has_neighbourb endpoints tolerance j (fst b))];
    simpl in Hlen; lia.
Qed.

End Pieces.

Section Tolerances.

Variables tolerance tolerance' : float.
Hypothesis Hwider : (tolerance <=? tolerance')%float = true.

Lemma near_any_wider (others : list segment) (p : DPoint.t) :
  near_any tolerance others p = true -> near_any tolerance' others p = true.
Proof.
  unfold near_any. rewrite !existsb_exists.
  intros (o & Hin & Ho). exists o. split; [assumption |].
  apply orb_true_iff in Ho. apply orb_true_iff.
  destruct Ho as [Ho | Ho]; [left | right];
    exact (ltb_leb_trans Ho Hwider).
Qed.

Lemma loose_ends_wider (others : list segment) (piece : segment) :
  (loose_ends tolerance' others piece <= loose_ends tolerance others piece)%nat.
Proof.
  unfold loose_ends. destruct (degenerate piece); [lia |].
  pose proof (near_any_wider others (fst piece)) as H1.
  pose proof (near_any_wider others (snd piece)) as H2.
  simpl.
  destruct (near_any tolerance others (fst piece)),
    (near_any tolerance others (snd piece));
    try rewrite H1 by reflexivity; try rewrite H2 by reflexivity;
    destruct (near_any tolerance' others (fst piece)),
      (near_any tolerance' others (snd piece)); simpl; lia.
Qed.

Lemma loose_total_wider (rest : list segment) :
  forall before,
  (loose_total tolerance' before rest <= loose_total tolerance before rest)%nat.
Proof.
  induction rest as [| x rest IH]; intros before; simpl; [lia |].
  pose proof (loose_ends_wider (before ++ rest) x).
  specialize (IH (before ++ [x])). lia.
Qed.

(** X13: a tolerance that is not smaller never turns a continuous waveguide
    into a broken one. *)
Theorem endpoints_continuous_wider (endpoints : list segment) :
  endpoints_continuous endpoints tolerance = true ->
  endpoints_continuous endpoints tolerance' = true.
Proof.
  rewrite !endpoints_continuous_loose, !Nat.leb_le.
  pose proof (loose_total_wider endpoints []). lia.
Qed.

End Tolerances.

(* ------------------------------------------------------------------ *)
(** ** Collecting the pieces *)

Lemma last_cons {A} (pts : list A) :
  forall (pt d : A), last (pt :: pts) d = last pts pt.
Proof.
  induction pts as [| q pts IH]; intros pt d; [reflexivity |].
  change (last (pt :: q :: pts) d) with (last (q :: pts) d).
  now rewrite !IH.
Qed.

Lemma fold_left_last {A} (pts : list A) :
  forall d : A, fold_left (fun _ pt => pt) pts d = last pts d.
Proof.
  induction pts as [| pt pts IH]; intros d; [reflexivity |].
  cbn [fold_left]. now rewrite IH, last_cons.
Qed.

(** X14: the endpoints of a path shape with points are its first and its
    last point under [dtrans]; the points in between play no part.  A path of
    one point gives that point under [dtrans] and the same point under
    [dtrans] twice. *)
Theorem path_endpoints_first_last (shape : Shape) (dtrans : DPoint.t -> DPoint.t)
  (pt : DPoint.t) (pts : list DPoint.t) :
  each_dpoint shape = pt :: pts ->
  path_endpoints shape dtrans = ret (dtrans pt, dtrans (last pts (dtrans pt)))
  /\ (pts = [] ->
      path_endpoints shape dtrans = ret (dtrans pt, dtrans (dtrans pt)))
  /\ (pts <> [] ->
      path_endpoints shape dtrans = ret (dtrans pt, dtrans (last pts pt))).
Proof.
  intros Hpts. unfold path_endpoints. rewrite Hpts, fold_left_last.
  split; [reflexivity |]. split.
  - now intros ->.
  - intros Hne. destruct pts as [| q pts]; [easy |].
    now rewrite !last_cons.
Qed.

Lemma find_endpoints_acc (shapes_iter : shapes_rec) :
  forall endpoints,
  find_endpoints shapes_iter endpoints
  = bind (find_endpoints shapes_iter [])
         (fun found => ret (endpoints ++ found)).
Proof.
  induction shapes_iter as [| [shape dtrans] it IH]; intros endpoints; simpl.
  - now rewrite bind_ret, app_nil_r.
  - destruct (is_path shape); [| apply IH].
    unfold path_endpoints. destruct (each_dpoint shape) as [| pt pts].
    + reflexivity.
    + rewrite !bind_ret. rewrite (IH (endpoints ++ _)), (IH [_]).
      unfold bind.
      destruct (find_endpoints it []) as [es [e | found]]; simpl;
        [reflexivity |].
      now rewrite !app_nil_r, <- app_assoc.
Qed.

(** X15: shapes of the layer that are not paths play no part in the
    verdict. *)
Theorem is_continuous_ignores_other_shapes (annotation_shapes : shapes_rec)
  (tolerance : float) :
  is_continuous annotation_shapes tolerance
  = is_continuous (filter (fun st => is_path (fst st)) annotation_shapes)
      tolerance.
Proof.
  unfold is_continuous. f_equal. generalize (@nil segment).
  induction annotation_shapes as [| [shape dtrans] it IH]; intros acc; simpl.
  - reflexivity.
  - destruct (is_path shape) eqn:E; [| apply IH].
    simpl. rewrite E. unfold bind.
    destruct (path_endpoints shape dtrans) as [es [e | ends]]; simpl;
      [reflexivity |].
    now rewrite IH.
Qed.

Lemma path_endpoints_cases (shape : Shape) (dtrans : DPoint.t -> DPoint.t) :
  (exists e, path_endpoints shape dtrans = ret e)
  \/ path_endpoints shape dtrans = raise TypeError.
Proof.
  unfold path_endpoints. destruct (each_dpoint shape); [now right |].
  left. eexists. reflexivity.
Qed.

Lemma find_endpoints_cons (shape : Shape) (dtrans : DPoint.t -> DPoint.t)
  (it : shapes_rec) :
  find_endpoints ((shape, dtrans) :: it) []
  = if is_path shape
    then bind (path_endpoints shape dtrans)
           (fun e => bind (find_endpoints it [])
                       (fun found => ret (e :: found)))
    else find_endpoints it [].
Proof.
  cbn [find_endpoints]. destruct (is_path shape); [| reflexivity].
  destruct (path_endpoints_cases shape dtrans) as [[e ->] | ->];
    [| reflexivity].
  rewrite !bind_ret. exact (find_endpoints_acc it [e]).
Qed.

Lemma find_endpoints_perm (it it' : shapes_rec) :
  Permutation it it' ->
  (exists e e', find_endpoints it [] = ret e
                /\ find_endpoints it' [] = ret e' /\ Permutation e e')
  \/ (find_endpoints it [] = raise TypeError
      /\ find_endpoints it' [] = raise TypeError).
Proof.
  induction 1 as [| [shape dtrans] l l' _ IH
                  | [shape dtrans] [shape' dtrans'] l
                  | l l' l'' _ IH1 _ IH2].
  - left. exists [], []. auto.
  - rewrite !find_endpoints_cons.
    destruct (is_path shape); [| exact IH].
    destruct (path_endpoints_cases shape dtrans) as [[e ->] | ->];
      [| right; split; reflexivity].
    rewrite !bind_ret.
    destruct IH as [(e1 & e1' & -> & -> & Hp) | [-> ->]].
    + left. exists (e :: e1), (e :: e1'). rewrite !bind_ret. auto.
    + right. split; reflexivity.
  - rewrite !find_endpoints_cons.
    assert (Hl : (exists e, find_endpoints l [] = ret e)
                 \/ find_endpoints l [] = raise TypeError).
    { clear. induction l as [| [s d] l IHl]; [left; now exists [] |].
      rewrite find_endpoints_cons. destruct (is_path s); [| exact IHl].
      destruct (path_endpoints_cases s d) as [[e ->] | ->]; [| now right].
      rewrite bind_ret. destruct IHl as [[f ->] | ->]; [left | now right].
      rewrite bind_ret. eexists. reflexivity. }
    destruct (is_path shape), (is_path shape');
      try destruct (path_endpoints_cases shape dtrans) as [[e ->] | ->];
      try destruct (path_endpoints_cases shape' dtrans') as [[e' ->] | ->];
      destruct Hl as [[f ->] | ->];
      rewrite ?bind_ret, ?bind_raise;
      first [ right; split; reflexivity
            | left; do 2 eexists; split; [reflexivity |];
              split; [reflexivity |];
              first [apply perm_swap | apply Permutation_refl] ].
  - destruct IH1 as [(e1 & e1' & E1 & E1' & Hp1) | [E1 E1']],
      IH2 as [(e2 & e2' & E2 & E2' & Hp2) | [E2 E2']];
      rewrite ?E1' in *; try discriminate.
    + injection E2 as <-. left. exists e1, e2'. repeat split; auto.
      now transitivity e1'.
    + right. auto.
Qed.

(** X16: the verdict does not depend on the order in which the iterator
    gives the shapes. *)
Theorem is_continuous_perm (annotation_shapes annotation_shapes' : shapes_rec)
  (tolerance : float) :
  Permutation annotation_shapes annotation_shapes' ->
  is_continuous annotation_shapes tolerance
  = is_continuous annotation_shapes' tolerance.
Proof.
  intros Hp. unfold is_continuous.
  destruct (find_endpoints_perm Hp) as [(e & e' & -> & -> & He) | [-> ->]].
  - rewrite !bind_ret. f_equal. now apply endpoints_continuous_perm.
  - reflexivity.
Qed.

(* ------------------------------------------------------------------ *)
(** ** The verifier on the sample pieces *)

(** X10 on three pieces a quarter of a unit apart. *)
Lemma chain_is_continuous_witness :
  endpoints_continuous Sample2.chain_pieces 0.5 = true.
Proof.
  apply chain_is_continuous. vm_compute. reflexivity.
Defined.

(** X11 on a run with a piece of no length beside it. *)
Lemma lone_piece_is_continuous_witness :
  endpoints_continuous Sample2.lone_piece 0.5 = true.
Proof.
  apply lone_piece_is_continuous. vm_compute. lia.
Defined.

(** X12 on two runs two units apart. *)
Lemma separate_pieces_break_witness :
  endpoints_continuous Sample2.broken_pieces 0.5 = false.
Proof.
  apply (separate_pieces_break (tolerance := 0.5)
           (endpoints := Sample2.broken_pieces) (i := 0) (j := 1)
           (a := (Sample.pt 0 0, Sample.pt 70 0))
           (b := (Sample.pt 72 0, Sample.pt 100 0)));
    try reflexivity; try discriminate;
    try (rewrite <- has_neighbourb_spec; vm_compute; discriminate).
  left. rewrite <- has_neighbourb_spec. vm_compute. discriminate.
Defined.

(** X13 on the three pieces, from a tolerance of one half to three
    quarters. *)
Lemma endpoints_continuous_wider_witness :
  endpoints_continuous Sample2.chain_pieces 0.75 = true.
Proof.
  apply (endpoints_continuous_wider (tolerance := 0.5) (tolerance' := 0.75));
    vm_compute; reflexivity.
Defined.

(** X14 on a path of three points moved ten units to the right. *)
Lemma path_endpoints_first_last_witness :
  path_endpoints
    (mkShape true [Sample.pt 0 0; Sample.pt 35 0; Sample.pt 70 0]) Sample2.shift
  = ret (DPoint.new 10 0, DPoint.new 80 0).
Proof.
  rewrite (proj1 (path_endpoints_first_last
                    (mkShape true [Sample.pt 0 0; Sample.pt 35 0; Sample.pt 70 0])
                    Sample2.shift (pt := Sample.pt 0 0)
                    (pts := [Sample.pt 35 0; Sample.pt 70 0]) eq_refl)).
  vm_compute. reflexivity.
Defined.

(** X16 on four shapes and the same shapes in reverse. *)
Lemma is_continuous_perm_witness :
  is_continuous (rev Sample2.mixed_shapes) 0.5 = ret true.
Proof.
  rewrite <- (is_continuous_perm 0.5 (Permutation_rev Sample2.mixed_shapes)).
  vm_compute. reflexivity.
Defined.
